(** * Yurak3D: the gesture classifier and the heart particle system

    A shallow embedding of [GestureHandler.processResult] /
    [GestureHandler.isFist] (src/GestureHandler.js) and of
    [HeartSystem] (js/HeartSystem.js: [getHeartPoint], [resetParticle],
    [initParticles], [setParticleCount], [update]); then of
    [GestureHandler.predict], of the [HeartSystem] constructor, of the calls
    main.js makes on the system, and of [BloomManager.updateSettings]
    (js/BloomManager.js).

    Numbers.  JavaScript numbers are modelled as the real numbers [R] of the
    Standard Library: [Math.sqrt] is [sqrt], [Math.sin]/[Math.cos] are
    [sin]/[cos], [Math.PI] is [PI], [Math.hypot(a, b)] is [sqrt (a*a + b*b)].
    Rounding, [NaN] and the infinities of IEEE-754 doubles (and the narrowing
    of a [Float32Array] store) are outside the model.

    Arrays.  A [Float32Array] is a [list R]; a store is stdpp's list insert,
    which like a typed-array store does nothing out of range.  A landmark
    array is a [list Landmark]; reading past its end gives [undefined]
    ([None]) and reading a property of [undefined] throws [TypeError].

    Randomness.  [Math.random()] reads the next element of a stream of draws
    [random : nat -> R]; the position in that stream is part of the state. *)

From Stdlib Require Import Reals Lra Lia ZArith.
From stdpp Require Import base tactics option list.

#[local] Open Scope R_scope.

(** ** Abrupt completion *)

Inductive exn : Set := TypeError.

Inductive completion (A : Type) : Type :=
| Normal (a : A)
| Throw (e : exn).

Arguments Normal {A} a.
Arguments Throw {A} e.

Definition cbind {A B : Type} (c : completion A) (k : A -> completion B)
  : completion B :=
  match c with
  | Normal a => k a
  | Throw e => Throw e
  end.

Notation "'let!' v ':=' c 'in' k" := (cbind c (fun v => k))
  (at level 10, v name, c at level 100, k at level 200, only parsing).

(** [Math.hypot] on two arguments. *)
Definition hypot (a b : R) : R := sqrt (a * a + b * b).

(** ** src/GestureHandler.js *)

Module GestureHandler.

(** A landmark as MediaPipe delivers it: normalized coordinates. *)
Record Landmark : Set := { x : R; y : R; z : R }.

(** One hand: the array of its landmarks. *)
Abbreviation Hand := (list Landmark).

(** The object handed to [processResult]: [result.landmarks]. *)
Record HandLandmarkerResult : Set := { landmarks : list Hand }.

Inductive GestureType : Set := IDLE | EXPAND | CONTRACT.

(** The [state] object; [rotationY = None] is [undefined]. *)
Record GestureState : Set :=
  { type : GestureType; strength : R; rotationY : option R }.

(** [o.f] for an array element [o] that may be [undefined]. *)
Definition prop (f : Landmark -> R) (o : option Landmark) : completion R :=
  match o with
  | Some p => Normal (f p)
  | None => Throw TypeError
  end.

Definition tips : list nat := [8; 12; 16; 20]%nat.
Definition pips : list nat := [6; 10; 14; 18]%nat.

(** [Math.hypot(lm[k].x - wrist.x, lm[k].y - wrist.y)], the operands
    evaluated left to right. *)
Definition distToWrist (lm : Hand) (wrist : option Landmark) (k : nat)
  : completion R :=
  let! kx := prop x (lm !! k) in
  let! wx := prop x wrist in
  let! ky := prop y (lm !! k) in
  let! wy := prop y wrist in
  Normal (hypot (kx - wx) (ky - wy)).

(** The body of the [for] loop of [isFist] at index [i]. *)
Definition isFist_body (lm : Hand) (wrist : option Landmark)
    (foldedFingers : nat) (i : nat) : completion nat :=
  let! dTip := distToWrist lm wrist (nth i tips 0%nat) in
  let! dPip := distToWrist lm wrist (nth i pips 0%nat) in
  Normal (if Rlt_dec dTip dPip then S foldedFingers else foldedFingers).

(** [for (let i = ...; i < 4; i++)], as a loop over the indices left. *)
Fixpoint isFist_loop (lm : Hand) (wrist : option Landmark)
    (foldedFingers : nat) (idxs : list nat) : completion nat :=
  match idxs with
  | [] => Normal foldedFingers
  | i :: idxs' =>
      let! n := isFist_body lm wrist foldedFingers i in
      isFist_loop lm wrist n idxs'
  end.

Definition isFist (lm : Hand) : completion bool :=
  let wrist := lm !! 0%nat in
  let! foldedFingers := isFist_loop lm wrist 0%nat (seq 0 4) in
  Normal (3 <=? foldedFingers)%nat.

(** [processResult]; its value is the [state] it passes to
    [onGestureUpdate], the last statement of the function. *)
Definition processResult (result : HandLandmarkerResult)
  : completion GestureState :=
  let lms := landmarks result in
  let state := {| type := IDLE; strength := 0; rotationY := None |} in
  if (0 <? length lms)%nat then
    let hand1 := default [] (lms !! 0%nat) in
    let wrist := hand1 !! 0%nat in
    let! wx := prop x wrist in
    let rot := Some ((wx - 0.5) * PI * 2) in
    let! isFist0 := isFist hand1 in
    let! isFist' :=
      if (1 <? length lms)%nat then
        let! f1 := isFist (default [] (lms !! 1%nat)) in
        Normal (if f1 then true else isFist0)
      else Normal isFist0 in
    if isFist' then
      Normal {| type := CONTRACT; strength := 1; rotationY := rot |}
    else if (length lms =? 2)%nat then
      let h1 := default [] (lms !! 0%nat) !! 0%nat in
      let h2 := default [] (lms !! 1%nat) !! 0%nat in
      let! h1x := prop x h1 in
      let! h2x := prop x h2 in
      let! h1y := prop y h1 in
      let! h2y := prop y h2 in
      let dist := hypot (h1x - h2x) (h1y - h2y) in
      if Rgt_dec dist 0.5 then
        Normal {| type := EXPAND; strength := (dist - 0.5) * 2;
                  rotationY := rot |}
      else
        Normal {| type := IDLE; strength := 0; rotationY := rot |}
    else
      let thumbTip := hand1 !! 4%nat in
      let indexTip := hand1 !! 8%nat in
      let! tx := prop x thumbTip in
      let! ix := prop x indexTip in
      let! ty := prop y thumbTip in
      let! iy := prop y indexTip in
      let dist := hypot (tx - ix) (ty - iy) in
      if Rgt_dec dist 0.25 then
        Normal {| type := EXPAND; strength := (dist - 0.25) * 3;
                  rotationY := rot |}
      else
        Normal {| type := IDLE; strength := 0; rotationY := rot |}
  else Normal state.

(** *** Vocabulary of the classifier's specification *)

(** Landmark [k] of a hand that has one. *)
Definition landmark_at (lm : Hand) (k : nat) : Landmark :=
  default {| x := 0; y := 0; z := 0 |} (lm !! k).

(** Planar (x, y) Euclidean distance of two landmarks. *)
Definition planarDist (a b : Landmark) : R := hypot (x a - x b) (y a - y b).

(** A finger is folded when its tip is strictly nearer to the wrist than
    its PIP joint. *)
Definition folded (lm : Hand) (tip pip : nat) : bool :=
  if Rlt_dec (planarDist (landmark_at lm tip) (landmark_at lm 0))
             (planarDist (landmark_at lm pip) (landmark_at lm 0))
  then true else false.

(** How many of the four non-thumb fingers are folded. *)
Definition foldedCount (lm : Hand) : nat :=
  (Nat.b2n (folded lm 8 6) + Nat.b2n (folded lm 12 10)
   + Nat.b2n (folded lm 16 14) + Nat.b2n (folded lm 20 18))%nat.

Definition fist (lm : Hand) : bool := (3 <=? foldedCount lm)%nat.

(** A hand that has all 21 landmarks of the anatomical numbering. *)
Definition complete (lm : Hand) : Prop := (21 <= length lm)%nat.

(** A hand of 21 landmarks that all sit at the point [(a, b)]. *)
Definition pointHand (a b : R) : Hand :=
  replicate 21 {| x := a; y := b; z := 0 |}.

(** A hand whose wrist and four fingertips sit at the origin and whose
    other landmarks sit at [(1, 0)]: every finger is folded. *)
Definition closedHand : Hand :=
  let o := {| x := 0; y := 0; z := 0 |} in
  let e := {| x := 1; y := 0; z := 0 |} in
  [o; e; e; e; e; e; e; e; o; e; e; e; o; e; e; e; o; e; e; e; o].

(** *** The prediction loop *)

(** The fields of a [GestureHandler] that [predict] reads or writes:
    whether [this.landmarker] is set ([null] until [init] has loaded the
    model), and [this.lastVideoTime]. *)
Record Handler : Set := { landmarker : bool; lastVideoTime : R }.

(** The handler as the constructor leaves it. *)
Definition newHandler : Handler :=
  {| landmarker := false; lastVideoTime := -1 |}.

(** What one call of [predict] has done when it ends: the handler's fields,
    whether [requestAnimationFrame] was called to run [predict] again, and
    the completion of [processResult] if it was called. *)
Record Predicted : Set :=
  { handler : Handler; scheduled : bool;
    outcome : option (completion GestureState) }.

(** [predict()], at [this.video.currentTime = currentTime]; [detected] is
    what [this.landmarker.detectForVideo] returns if it is called. *)
Definition predict (currentTime : R) (detected : HandLandmarkerResult)
    (h : Handler) : Predicted :=
  if landmarker h then
    if Req_dec_T currentTime (lastVideoTime h) then
      {| handler := h; scheduled := true; outcome := None |}
    else
      {| handler := {| landmarker := landmarker h;
                       lastVideoTime := currentTime |};
         scheduled := true;
         outcome := Some (processResult detected) |}
  else {| handler := h; scheduled := false; outcome := None |}.

(** *** Vocabulary for moving the hands *)

(** A landmark whose coordinates are normalized, as MediaPipe delivers them
    for a hand inside the image. *)
Definition normalized (p : Landmark) : Prop :=
  0 <= x p <= 1 /\ 0 <= y p <= 1.

(** The landmark moved by [(a, b)] in the image plane. *)
Definition translate (a b : R) (p : Landmark) : Landmark :=
  {| x := x p + a; y := y p + b; z := z p |}.

(** The landmark with another depth. *)
Definition with_z (zf : Landmark -> R) (p : Landmark) : Landmark :=
  {| x := x p; y := y p; z := zf p |}.

(** The state with its rotation, if it has one, replaced by [rot]. *)
Definition with_rotationY (rot : R) (st : GestureState) : GestureState :=
  {| type := type st; strength := strength st;
     rotationY := match rotationY st with
                  | Some _ => Some rot
                  | None => None
                  end |}.

(** The same completion with [f] applied to its value. *)
Definition cmap {A B : Type} (f : A -> B) (c : completion A) : completion B :=
  match c with
  | Normal a => Normal (f a)
  | Throw e => Throw e
  end.

End GestureHandler.

(** ** js/HeartSystem.js *)

(** [THREE.MathUtils.lerp] of the three.js library the system is built on:
    [lerp(x, y, t) = (1 - t) * x + t * y]. *)
Definition lerp (x y t : R) : R := (1 - t) * x + t * y.

(** A [Float32Array] read.  Out of range JavaScript reads [undefined]; the
    model reads 0.  The four buffers of a system have [3 * maxCount] slots
    each, so a loop body reads out of range only at a particle all of whose
    slots are out of range, where every store it makes is discarded. *)
Definition aget (a : list R) (i : nat) : R := default 0 (a !! i).

Module HeartSystem.

Import GestureHandler.

(** [THREE.Vector3] and [THREE.Color], as far as the system uses them. *)
Record Vector3 : Set := { x : R; y : R; z : R }.
Record Color : Set := { r : R; g : R; b : R }.

(** [this.params] *)
Record Params : Set :=
  { color1 : Color; color2 : Color;
    springStrength : R; damping : R; noiseStrength : R }.

(** The fields of a [HeartSystem] object that its methods read or write.
    [positions]/[colors] of [update] are the very arrays [posArray] and
    [colorArray] (a [BufferAttribute] keeps the array it is given);
    [drawCount] is [geometry.drawRange.count], [rotation_y] is
    [container.rotation.y], [seed] is the number of [Math.random()] calls
    made so far. *)
Record System : Set :=
  { maxCount : Z;
    currentCount : Z;
    posArray : list R;
    targetArray : list R;
    velArray : list R;
    colorArray : list R;
    time : R;
    pulseSpeed : R;
    params : Params;
    drawCount : Z;
    rotation_y : R;
    seed : nat }.

Definition with_color (a : list R) (s : System) : System :=
  {| maxCount := maxCount s; currentCount := currentCount s;
     posArray := posArray s; targetArray := targetArray s;
     velArray := velArray s; colorArray := a;
     time := time s; pulseSpeed := pulseSpeed s; params := params s;
     drawCount := drawCount s; rotation_y := rotation_y s;
     seed := seed s |}.

Definition with_time (v : R) (s : System) : System :=
  {| maxCount := maxCount s; currentCount := currentCount s;
     posArray := posArray s; targetArray := targetArray s;
     velArray := velArray s; colorArray := colorArray s;
     time := v; pulseSpeed := pulseSpeed s; params := params s;
     drawCount := drawCount s; rotation_y := rotation_y s;
     seed := seed s |}.

Definition with_rotation_y (v : R) (s : System) : System :=
  {| maxCount := maxCount s; currentCount := currentCount s;
     posArray := posArray s; targetArray := targetArray s;
     velArray := velArray s; colorArray := colorArray s;
     time := time s; pulseSpeed := pulseSpeed s; params := params s;
     drawCount := drawCount s; rotation_y := v;
     seed := seed s |}.

Definition with_count (c d : Z) (s : System) : System :=
  {| maxCount := maxCount s; currentCount := c;
     posArray := posArray s; targetArray := targetArray s;
     velArray := velArray s; colorArray := colorArray s;
     time := time s; pulseSpeed := pulseSpeed s; params := params s;
     drawCount := d; rotation_y := rotation_y s;
     seed := seed s |}.

Section Methods.

(** The draws of [Math.random()], in the order they are made. *)
Variable random : nat -> R.

(** [Math.random()] when [k] draws have been made: the draw and the new
    number of draws. *)
Definition Math_random (k : nat) : R * nat := (random k, S k).

(** [getHeartPoint(t, scale)] *)
Definition getHeartPoint (t scale : R) (k : nat) : Vector3 * nat :=
  let x := 16 * sin t ^ 3 in
  let y := 13 * cos t - 5 * cos (2 * t) - 2 * cos (3 * t) - cos (4 * t) in
  let '(u, k) := Math_random k in
  let z := (u - 0.5) * 10 * scale in
  ({| x := x * scale; y := y * scale; z := z |}, k).

(** [resetParticle(i)]; [pos], [tgt] and [vel] are [this.posArray],
    [this.targetArray] and [this.velArray], stored into in place. *)
Definition resetParticle (s : System) (i : nat) : System :=
  let k := seed s in
  let '(u, k) := Math_random k in
  let t := u * PI * 2 in
  let '(u, k) := Math_random k in
  let r := sqrt u in
  let '(p, k) := getHeartPoint t r k in
  let p := {| x := x p; y := y p + 2; z := z p |} in
  let pos := posArray s in
  let pos := <[(i * 3)%nat := x p]> pos in
  let pos := <[(i * 3 + 1)%nat := y p]> pos in
  let pos := <[(i * 3 + 2)%nat := z p]> pos in
  let tgt := targetArray s in
  let tgt := <[(i * 3)%nat := x p]> tgt in
  let tgt := <[(i * 3 + 1)%nat := y p]> tgt in
  let tgt := <[(i * 3 + 2)%nat := z p]> tgt in
  let vel := velArray s in
  let vel := <[(i * 3)%nat := 0]> vel in
  let vel := <[(i * 3 + 1)%nat := 0]> vel in
  let vel := <[(i * 3 + 2)%nat := 0]> vel in
  {| maxCount := maxCount s; currentCount := currentCount s;
     posArray := pos; targetArray := tgt;
     velArray := vel; colorArray := colorArray s;
     time := time s; pulseSpeed := pulseSpeed s; params := params s;
     drawCount := drawCount s; rotation_y := rotation_y s;
     seed := k |}.

(** The loop [for (let i = 0; i < n; i++) this.resetParticle(i)]. *)
Definition resetParticles (n : nat) (s : System) : System :=
  fold_left resetParticle (seq 0 n) s.

(** [initParticles()]: the loop up to [this.maxCount]; the two
    [setAttribute] calls hand the same arrays to the geometry. *)
Definition initParticles (s : System) : System :=
  resetParticles (Z.to_nat (maxCount s)) s.

(** [setParticleCount(count)] *)
Definition setParticleCount (count : Z) (s : System) : System :=
  let c := Z.min count (maxCount s) in
  with_count c c s.

(** [v || 0] on a number [v]. *)
Definition or_zero (v : R) : R := if Req_dec_T v 0 then 0 else v.

(** The pulse of [update], as a function of [this.time]. *)
Definition beat (time : R) : R :=
  1 + sin (time * 3) * 0.05 * (1 + sin (time * 3 + PI) * 0.5).

(** [len] of the EXPAND branch of [update]: the length of the position
    plus the additive epsilon. *)
Definition expand_len (px py pz : R) : R :=
  sqrt (px * px + py * py + pz * pz) + 0.001.

(** The body of the particle loop of [update]; [positions], [colors] and
    [vel] are the arrays [this.posArray], [this.colorArray] and
    [this.velArray], stored into in place. *)
Definition update_particle (dt pulseScale : R) (isExp isCon : bool)
    (handStrength : R) (s : System) (i : nat) : System :=
  let positions := posArray s in
  let colors := colorArray s in
  let vel := velArray s in
  let k := seed s in
  let idx := (i * 3)%nat in
  let px := aget positions idx in
  let py := aget positions (idx + 1) in
  let pz := aget positions (idx + 2) in
  let tx := aget (targetArray s) idx * pulseScale in
  let ty := aget (targetArray s) (idx + 1) * pulseScale in
  let tz := aget (targetArray s) (idx + 2) * pulseScale in
  let fx := 0 in let fy := 0 in let fz := 0 in
  let fx := fx + (tx - px) * springStrength (params s) in
  let fy := fy + (ty - py) * springStrength (params s) in
  let fz := fz + (tz - pz) * springStrength (params s) in
  let '(fx, fy, fz) :=
    if isExp then
      let len := expand_len px py pz in
      let push := 50 * handStrength in
      (fx + (px / len) * push * dt,
       fy + (py / len) * push * dt,
       fz + (pz / len) * push * dt)
    else if isCon then
      (fx - px * 5 * handStrength * dt,
       fy - py * 5 * handStrength * dt,
       fz - pz * 5 * handStrength * dt)
    else (fx, fy, fz) in
  let '(u, k) := Math_random k in
  let fx := fx + (u - 0.5) * noiseStrength (params s) in
  let '(u, k) := Math_random k in
  let fy := fy + (u - 0.5) * noiseStrength (params s) in
  let '(u, k) := Math_random k in
  let fz := fz + (u - 0.5) * noiseStrength (params s) in
  let vel := <[idx := aget vel idx + fx]> vel in
  let vel := <[(idx + 1)%nat := aget vel (idx + 1) + fy]> vel in
  let vel := <[(idx + 2)%nat := aget vel (idx + 2) + fz]> vel in
  let vel := <[idx := aget vel idx * damping (params s)]> vel in
  let vel :=
    <[(idx + 1)%nat := aget vel (idx + 1) * damping (params s)]> vel in
  let vel :=
    <[(idx + 2)%nat := aget vel (idx + 2) * damping (params s)]> vel in
  let positions := <[idx := aget positions idx + aget vel idx]> positions in
  let positions :=
    <[(idx + 1)%nat := aget positions (idx + 1) + aget vel (idx + 1)]>
      positions in
  let positions :=
    <[(idx + 2)%nat := aget positions (idx + 2) + aget vel (idx + 2)]>
      positions in
  let vSq := aget vel idx ^ 2 + aget vel (idx + 1) ^ 2
             + aget vel (idx + 2) ^ 2 in
  let speed := sqrt vSq in
  let tColor := Rmin (speed * 0.5) 1 in
  let colors :=
    <[idx := lerp (r (color1 (params s))) (r (color2 (params s))) tColor]>
      colors in
  let colors :=
    <[(idx + 1)%nat :=
        lerp (g (color1 (params s))) (g (color2 (params s))) tColor]>
      colors in
  let colors :=
    <[(idx + 2)%nat :=
        lerp (b (color1 (params s))) (b (color2 (params s))) tColor]>
      colors in
  {| maxCount := maxCount s; currentCount := currentCount s;
     posArray := positions; targetArray := targetArray s;
     velArray := vel; colorArray := colors;
     time := time s; pulseSpeed := pulseSpeed s; params := params s;
     drawCount := drawCount s; rotation_y := rotation_y s;
     seed := k |}.

(** The loop [for (let i = 0; i < this.currentCount; i++)] of [update]. *)
Definition update_loop (dt pulseScale : R) (isExp isCon : bool)
    (handStrength : R) (s : System) : System :=
  fold_left (update_particle dt pulseScale isExp isCon handStrength)
    (seq 0 (Z.to_nat (currentCount s))) s.

(** [update(dt, gestureState)] *)
Definition update (dt : R) (gestureState : GestureState) (s : System)
  : System :=
  let s := with_time (time s + dt * pulseSpeed s) s in
  let pulseScale := beat (time s) in
  let isExp := match type gestureState with EXPAND => true | _ => false end in
  let isCon := match type gestureState with CONTRACT => true | _ => false end in
  let handStrength := or_zero (strength gestureState) in
  let s := update_loop dt pulseScale isExp isCon handStrength s in
  match rotationY gestureState with
  | Some rotY =>
      with_rotation_y (rotation_y s + (rotY - rotation_y s) * 0.1) s
  | None => with_rotation_y (rotation_y s + dt * 0.1) s
  end.

(** The driver loop of main.js as far as the system sees it: one
    [update(dt, gesture)] per frame. *)
Definition run (frames : list (R * GestureState)) (s : System) : System :=
  fold_left (fun s f => update (fst f) (snd f) s) frames s.

(** *** The constructor and the calls main.js makes *)

(** [new Float32Array(n)].  It throws a [RangeError] ([None]) for a
    negative length, for a length above [2^53 - 1], and for a length the
    engine will not allocate (it has a largest length of its own, and it may
    be out of memory): [allocates j n] says whether the engine, with [j]
    buffers of this system allocated, allocates one more of length [n].
    Otherwise the array holds [n] zeros. *)
Definition Float32Array (allocates : nat -> Z -> bool) (j : nat) (n : Z)
  : option (list R) :=
  if ((n <? 0) || (2 ^ 53 - 1 <? n))%Z then None
  else if allocates j n then Some (replicate (Z.to_nat n) 0)
  else None.

(** [new HeartSystem(scene, maxCount)], as far as the fields of [System] go;
    it fails ([None]) when one of its four [new Float32Array] throws.  The
    two colours are what [THREE.Color] makes of the two hex strings, and
    [drawCount0] is the draw count a fresh [BufferGeometry] has; both come
    from three.js and are taken as given.  [k] is the number of
    [Math.random()] calls made before. *)
Definition constructor (allocates : nat -> Z -> bool) (crimson pink : Color)
    (drawCount0 : Z) (maxCount : Z) (k : nat) : option System :=
  match Float32Array allocates 0 (maxCount * 3) with
  | None => None
  | Some pos =>
  match Float32Array allocates 1 (maxCount * 3) with
  | None => None
  | Some tgt =>
  match Float32Array allocates 2 (maxCount * 3) with
  | None => None
  | Some vel =>
  match Float32Array allocates 3 (maxCount * 3) with
  | None => None
  | Some col =>
      Some (initParticles
              {| maxCount := maxCount;
                 currentCount := 3000;
                 posArray := pos;
                 targetArray := tgt;
                 velArray := vel;
                 colorArray := col;
                 time := 0;
                 pulseSpeed := 1;
                 params := {| color1 := crimson; color2 := pink;
                              springStrength := 0.05; damping := 0.92;
                              noiseStrength := 0.2 |};
                 drawCount := drawCount0;
                 rotation_y := 0;
                 seed := k |})
  end end end end.

(** [heartSystem.params.color1.set(v)]: the colour object of the
    parameters is changed in place; [c] is the colour [THREE.Color] makes
    of [v]. *)
Definition with_color1 (c : Color) (s : System) : System :=
  {| maxCount := maxCount s; currentCount := currentCount s;
     posArray := posArray s; targetArray := targetArray s;
     velArray := velArray s; colorArray := colorArray s;
     time := time s; pulseSpeed := pulseSpeed s;
     params := {| color1 := c; color2 := color2 (params s);
                  springStrength := springStrength (params s);
                  damping := damping (params s);
                  noiseStrength := noiseStrength (params s) |};
     drawCount := drawCount s; rotation_y := rotation_y s;
     seed := seed s |}.

(** What main.js does to the system once it is built: [update] from
    [animate], [setParticleCount] from the setup and the particle-count
    slider, [initParticles] from [resetSystem], and
    [params.color1.set] from the colour picker. *)
Inductive call : Set :=
| Update (dt : R) (gesture : GestureState)
| SetParticleCount (count : Z)
| InitParticles
| SetColor1 (c : Color).

Definition perform (s : System) (c : call) : System :=
  match c with
  | Update dt gesture => update dt gesture s
  | SetParticleCount count => setParticleCount count s
  | InitParticles => initParticles s
  | SetColor1 c => with_color1 c s
  end.

Definition performAll (calls : list call) (s : System) : System :=
  fold_left perform calls s.

End Methods.

(** *** Vocabulary of the system's specification *)

(** Particle [i] of a buffer of 3 numbers per particle. *)
Definition vec (a : list R) (i : nat) : Vector3 :=
  {| x := aget a (i * 3); y := aget a (i * 3 + 1); z := aget a (i * 3 + 2) |}.

Definition vadd (u v : Vector3) : Vector3 :=
  {| x := x u + x v; y := y u + y v; z := z u + z v |}.
Definition vsub (u v : Vector3) : Vector3 :=
  {| x := x u - x v; y := y u - y v; z := z u - z v |}.
Definition vscale (k : R) (v : Vector3) : Vector3 :=
  {| x := k * x v; y := k * y v; z := k * z v |}.
Definition vzero : Vector3 := {| x := 0; y := 0; z := 0 |}.
Definition vlen (v : Vector3) : R := sqrt (x v * x v + y v * y v + z v * z v).

(** [n] clamped into [[lo, hi]]. *)
Definition clamp (lo hi n : Z) : Z := Z.max lo (Z.min n hi).

(** The boundary curve of the heart. *)
Definition heartX (t : R) : R := 16 * sin t ^ 3.
Definition heartY (t : R) : R :=
  13 * cos t - 5 * cos (2 * t) - 2 * cos (3 * t) - cos (4 * t).

(** The forces of one step as the specification words them: the spring
    toward [home * pulseScale], the gesture force by variant, the noise of
    three draws. *)
Definition f_spring (P : Params) (pulseScale : R) (home position : Vector3)
  : Vector3 :=
  vscale (springStrength P) (vsub (vscale pulseScale home) position).

Definition f_gesture (gesture : GestureState) (dt : R) (position : Vector3)
  : Vector3 :=
  match type gesture with
  | EXPAND =>
      vscale (50 * strength gesture * dt)
             (vscale (/ (vlen position + 0.001)) position)
  | CONTRACT => vscale (- (5 * strength gesture * dt)) position
  | IDLE => vzero
  end.

Definition f_noise (P : Params) (u0 u1 u2 : R) : Vector3 :=
  {| x := (u0 - 0.5) * noiseStrength P;
     y := (u1 - 0.5) * noiseStrength P;
     z := (u2 - 0.5) * noiseStrength P |}.

(** Integration in the specification's order: accumulate the forces into
    the velocity, damp it, then move the position by the damped velocity;
    the colour is the interpolation at factor [min(|velocity| * 0.5, 1)]. *)
Definition step_velocity (P : Params) (velocity force : Vector3) : Vector3 :=
  vscale (damping P) (vadd velocity force).

Definition step_position (position velocity' : Vector3) : Vector3 :=
  vadd position velocity'.

Definition step_color (P : Params) (velocity' : Vector3) : Vector3 :=
  let f := Rmin (vlen velocity' * 0.5) 1 in
  {| x := lerp (r (color1 P)) (r (color2 P)) f;
     y := lerp (g (color1 P)) (g (color2 P)) f;
     z := lerp (b (color1 P)) (b (color2 P)) f |}.

(** *** A small system and a stream of draws to evaluate on *)

Definition exampleParams : Params :=
  {| color1 := {| r := 1; g := 0; b := 0.1 |};
     color2 := {| r := 1; g := 0; b := 1 |};
     springStrength := 0.05; damping := 0.92; noiseStrength := 0.2 |}.

(** Two particles, both active, at rest on their homes. *)
Definition exampleSystem : System :=
  {| maxCount := 2; currentCount := 2;
     posArray := [1; 2; 3; 4; 5; 6];
     targetArray := [1; 2; 3; 4; 5; 6];
     velArray := [0; 0; 0; 0; 0; 0];
     colorArray := [0; 0; 0; 0; 0; 0];
     time := 0; pulseSpeed := 1; params := exampleParams;
     drawCount := 2; rotation_y := 0; seed := 0 |}.

(** Every draw is one half. *)
Definition halves : nat -> R := fun _ => 0.5.

(** [exampleSystem] without noise. *)
Definition stillSystem : System :=
  {| maxCount := 2; currentCount := 2;
     posArray := [1; 2; 3; 4; 5; 6];
     targetArray := [1; 2; 3; 4; 5; 6];
     velArray := [0; 0; 0; 0; 0; 0];
     colorArray := [0; 0; 0; 0; 0; 0];
     time := 0; pulseSpeed := 1;
     params := {| color1 := {| r := 1; g := 0; b := 0.1 |};
                  color2 := {| r := 1; g := 0; b := 1 |};
                  springStrength := 0.05; damping := 0.92;
                  noiseStrength := 0 |};
     drawCount := 2; rotation_y := 0; seed := 0 |}.

(** *** More vocabulary *)

(** The four buffers have the [3 * maxCount] slots the constructor gave
    them. *)
Definition allocated (s : System) : Prop :=
  length (posArray s) = Z.to_nat (maxCount s * 3)
  /\ length (targetArray s) = Z.to_nat (maxCount s * 3)
  /\ length (velArray s) = Z.to_nat (maxCount s * 3)
  /\ length (colorArray s) = Z.to_nat (maxCount s * 3).

(** The first colour after the calls: the one the last colour call set, or
    [c0] if there was none. *)
Definition lastColor1 (calls : list call) (c0 : Color) : Color :=
  fold_left (fun c call => match call with SetColor1 c' => c' | _ => c end)
    calls c0.

(** The time the frames of a run add up to. *)
Definition elapsed (frames : list (R * GestureState)) : R :=
  fold_right Rplus 0 (fst <$> frames).

End HeartSystem.

(** ** js/BloomManager.js *)

Module BloomManager.

(** The three settings of the [UnrealBloomPass] that the manager sets. *)
Record BloomPass : Set := { strength : R; radius : R; threshold : R }.

(** The [params] object of [updateSettings]; [None] is [undefined]. *)
Record Settings : Set :=
  { bloomStrength : option R; bloomRadius : option R;
    bloomThreshold : option R }.

(** [updateSettings(params)], on [this.bloomPass]. *)
Definition updateSettings (params : Settings) (pass : BloomPass) : BloomPass :=
  let pass :=
    match bloomStrength params with
    | Some v => {| strength := v; radius := radius pass;
                   threshold := threshold pass |}
    | None => pass
    end in
  let pass :=
    match bloomRadius params with
    | Some v => {| strength := strength pass; radius := v;
                   threshold := threshold pass |}
    | None => pass
    end in
  let pass :=
    match bloomThreshold params with
    | Some v => {| strength := strength pass; radius := radius pass;
                   threshold := v |}
    | None => pass
    end in
  pass.

(** The settings [later] laid over the settings [earlier]. *)
Definition over (later earlier : Settings) : Settings :=
  {| bloomStrength :=
       match bloomStrength later with Some v => Some v
                                 | None => bloomStrength earlier end;
     bloomRadius :=
       match bloomRadius later with Some v => Some v
                               | None => bloomRadius earlier end;
     bloomThreshold :=
       match bloomThreshold later with Some v => Some v
                                  | None => bloomThreshold earlier end |}.

End BloomManager.

(** * Properties of the classifier *)

Section Classifier.

Import GestureHandler.

Lemma throw_TypeError {A : Type} (e : exn) : @Throw A e = Throw TypeError.
Proof. by destruct e. Qed.

Lemma lookup_landmark_at (lm : Hand) (k : nat) :
  (k < length lm)%nat -> lm !! k = Some (landmark_at lm k).
Proof.
  intros Hk. unfold landmark_at.
  destruct (lookup_lt_is_Some_2 lm k Hk) as [p ->]. done.
Qed.

Lemma distToWrist_undefined (lm : Hand) (w : option Landmark) (k : nat) :
  lm !! k = None -> distToWrist lm w k = Throw TypeError.
Proof. intros H. unfold distToWrist. by rewrite H. Qed.

Lemma distToWrist_complete (lm : Hand) (k : nat) :
  complete lm -> (k < 21)%nat ->
  distToWrist lm (lm !! 0%nat) k
  = Normal (planarDist (landmark_at lm k) (landmark_at lm 0)).
Proof.
  intros Hc Hk. unfold complete in Hc. unfold distToWrist.
  rewrite (lookup_landmark_at lm k) by lia.
  rewrite (lookup_landmark_at lm 0) by lia. done.
Qed.

(** The loop throws as soon as one of the tips it is to read is missing. *)
Lemma isFist_loop_undefined (lm : Hand) (w : option Landmark) (idxs : list nat) :
  forall (n i : nat),
    In i idxs -> lm !! (nth i tips 0%nat) = None ->
    isFist_loop lm w n idxs = Throw TypeError.
Proof.
  induction idxs as [|j idxs IH]; intros n i Hin Hnone; [destruct Hin|].
  simpl. destruct (isFist_body lm w n j) as [n'|e] eqn:Hb.
  - simpl. destruct Hin as [->|Hin]; [|by eapply IH].
    unfold isFist_body in Hb.
    rewrite (distToWrist_undefined _ _ _ Hnone) in Hb. discriminate.
  - simpl. apply throw_TypeError.
Qed.

Lemma isFist_short (lm : Hand) :
  (length lm < 21)%nat -> isFist lm = Throw TypeError.
Proof.
  intros Hlen. unfold isFist.
  rewrite (isFist_loop_undefined lm (lm !! 0%nat) (seq 0 4) 0 3); [done| |].
  - simpl. tauto.
  - simpl. apply lookup_ge_None. lia.
Qed.

Lemma isFist_complete (lm : Hand) :
  complete lm -> isFist lm = Normal (fist lm).
Proof.
  intros Hc. unfold isFist, fist, foldedCount, folded. simpl.
  unfold isFist_body. simpl.
  rewrite !distToWrist_complete by (done || lia). simpl.
  repeat (rewrite !distToWrist_complete by (done || lia); simpl).
  repeat destruct (Rlt_dec _ _); reflexivity.
Qed.

Lemma isFist_Normal_complete (lm : Hand) (v : bool) :
  isFist lm = Normal v -> complete lm.
Proof.
  intros H. unfold complete.
  destruct (Nat.le_gt_cases 21 (length lm)) as [Hle|Hlt]; [done|].
  rewrite (isFist_short lm) in H by lia. discriminate.
Qed.

(** The gesture of a complete first hand; [second] is the verdict of
    [isFist] on the second hand, [false] when there is none. *)
Lemma processResult_first (result : HandLandmarkerResult)
    (h0 : Hand) (rest : list Hand) :
  landmarks result = h0 :: rest ->
  complete h0 ->
  (forall h1, rest !! 0%nat = Some h1 -> complete h1) ->
  let rot := Some ((x (landmark_at h0 0) - 0.5) * PI * 2) in
  let second := match rest with h1 :: _ => fist h1 | [] => false end in
  processResult result =
    if second || fist h0 then
      Normal {| type := CONTRACT; strength := 1; rotationY := rot |}
    else
      match rest with
      | [h1] =>
          let dist := planarDist (landmark_at h0 0) (landmark_at h1 0) in
          if Rgt_dec dist 0.5 then
            Normal {| type := EXPAND; strength := (dist - 0.5) * 2;
                      rotationY := rot |}
          else Normal {| type := IDLE; strength := 0; rotationY := rot |}
      | _ =>
          let dist := planarDist (landmark_at h0 4) (landmark_at h0 8) in
          if Rgt_dec dist 0.25 then
            Normal {| type := EXPAND; strength := (dist - 0.25) * 3;
                      rotationY := rot |}
          else Normal {| type := IDLE; strength := 0; rotationY := rot |}
      end.
Proof.
  intros Hl Hc0 Hc1 rot second. unfold processResult. rewrite Hl.
  assert (H0 : forall k, (k < 21)%nat -> h0 !! k = Some (landmark_at h0 k)).
  { intros k Hk. apply lookup_landmark_at. unfold complete in Hc0. lia. }
  cbn [length Nat.ltb Nat.leb lookup list_lookup default from_option Datatypes.id].
  rewrite (H0 0%nat) by lia. cbn [prop cbind].
  rewrite (isFist_complete h0 Hc0). cbn [cbind].
  destruct rest as [|h1 rest'].
  - cbn [length Nat.ltb Nat.leb cbind]. subst second. cbn [orb].
    destruct (fist h0); [done|].
    cbn [Nat.eqb]. rewrite (H0 4%nat), (H0 8%nat) by lia. done.
  - assert (Hc1' : complete h1) by (by apply Hc1).
    cbn [length Nat.ltb Nat.leb lookup list_lookup default from_option Datatypes.id cbind].
    rewrite (isFist_complete h1 Hc1'). cbn [cbind]. subst second.
    destruct (fist h1); cbn [orb]; [done|].
    destruct (fist h0); [done|].
    destruct rest' as [|h2 rest''].
    + cbn [length Nat.eqb].
      rewrite (lookup_landmark_at h1 0%nat) by (unfold complete in Hc1'; lia).
      done.
    + cbn [length Nat.eqb]. rewrite (H0 4%nat), (H0 8%nat) by lia. done.
Qed.

(** **** Concrete hands *)

Lemma hypot_0_r (a : R) : hypot a 0 = Rabs a.
Proof.
  unfold hypot. replace (a * a + 0 * 0) with (Rsqr a) by (unfold Rsqr; ring).
  apply sqrt_Rsqr_abs.
Qed.

Lemma pointHand_complete (a b : R) : complete (pointHand a b).
Proof. unfold complete, pointHand. rewrite length_replicate. lia. Qed.

Lemma pointHand_at (a b : R) (k : nat) :
  (k < 21)%nat ->
  landmark_at (pointHand a b) k = {| x := a; y := b; z := 0 |}.
Proof.
  intros Hk. unfold landmark_at, pointHand.
  by rewrite (lookup_replicate_2 21 _ k Hk).
Qed.

Lemma pointHand_not_fist (a b : R) : fist (pointHand a b) = false.
Proof.
  unfold fist, foldedCount, folded.
  rewrite !pointHand_at by lia.
  destruct (Rlt_dec _ _) as [Hlt|_]; [exfalso; lra|]. reflexivity.
Qed.

Lemma closedHand_fist : fist closedHand = true.
Proof.
  unfold fist, foldedCount, folded, landmark_at, closedHand.
  cbn [lookup list_lookup default from_option Datatypes.id].
  unfold planarDist. cbn [x y].
  replace (0 - 0) with 0 by ring. replace (1 - 0) with 1 by ring.
  rewrite !hypot_0_r, Rabs_R0, Rabs_R1.
  destruct (Rlt_dec 0 1) as [_|Hn]; [reflexivity|exfalso; lra].
Qed.

Lemma fist_true (lm : Hand) : fist lm = true <-> (3 <= foldedCount lm)%nat.
Proof. unfold fist. apply Nat.leb_le. Qed.

Lemma fist_false (lm : Hand) : fist lm = false <-> (foldedCount lm < 3)%nat.
Proof. unfold fist. apply Nat.leb_gt. Qed.

(** **** The claims about the classifier *)

(** C2, as the code has it.  A hand (the first or the second of the result)
    that has fewer than the 21 landmarks the fixed indices 0..20 require
    makes [processResult] fail: it completes abruptly and hands no gesture
    state to [onGestureUpdate].  The classifier does not validate the hand:
    it reads the missing landmark, which is [undefined], and the failure is
    the [TypeError] JavaScript raises when [.x] is read from it. *)
Theorem processResult_short_hand_fails
    (result : HandLandmarkerResult) (h : Hand) (k : nat) :
  (k < 2)%nat ->
  landmarks result !! k = Some h ->
  (length h < 21)%nat ->
  processResult result = Throw TypeError.
Proof.
  intros Hk Hh Hlen. destruct result as [lms]. cbn [landmarks] in Hh.
  unfold processResult. cbn [landmarks].
  destruct lms as [|h0 rest]; [discriminate|].
  cbn [length Nat.ltb Nat.leb lookup list_lookup default from_option
         Datatypes.id].
  destruct (h0 !! 0%nat) as [w|] eqn:Hw; [|reflexivity].
  cbn [prop cbind].
  destruct k as [|[|k]]; [| |lia].
  - injection Hh as ->. by rewrite (isFist_short h Hlen).
  - destruct rest as [|h1 rest']; [discriminate|]. injection Hh as ->.
    destruct (isFist h0) as [f0|e]; [|apply throw_TypeError].
    cbn [cbind length Nat.ltb Nat.leb lookup list_lookup default
           from_option Datatypes.id].
    by rewrite (isFist_short h Hlen).
Qed.

Lemma processResult_short_hand_fails_witness :
  processResult {| landmarks := [pointHand 0 0; [] ] |} = Throw TypeError.
Proof.
  apply (processResult_short_hand_fails _ [] 1%nat).
  - lia.
  - reflexivity.
  - simpl. lia.
Defined.

(** C2 as stated fails: there is no invalid-landmark-set condition raised in
    place of a read past the end.  On a hand of 20 landmarks [isFist] reads
    and compares three fingers, then reads the fourth tip, index 20, past
    the end of the array; that read gives [undefined], and what fails is
    the property access on it, with the only exception there is, the
    [TypeError]. *)
Lemma processResult_reads_past_end :
  let h := replicate 20 {| x := 0; y := 0; z := 0 |} in
  isFist_loop h (h !! 0%nat) 0 [0; 1; 2]%nat = Normal 0%nat
  /\ (length h <= nth 3 tips 0)%nat
  /\ h !! nth 3 tips 0%nat = None
  /\ distToWrist h (h !! 0%nat) (nth 3 tips 0%nat) = Throw TypeError
  /\ isFist h = Throw TypeError
  /\ processResult {| landmarks := [h] |} = Throw TypeError
  /\ (forall e : exn, e = TypeError).
Proof.
  cbv zeta. split; [|split; [|split; [|split; [|split; [|split]]]]].
  - cbn [isFist_loop]. unfold isFist_body, distToWrist.
    cbn [nth tips pips replicate lookup list_lookup prop cbind x y].
    repeat match goal with
           | |- context [Rlt_dec ?a ?c] =>
               destruct (Rlt_dec a c) as [Hlt|_]; [exfalso; lra|]
           end.
    reflexivity.
  - cbn. lia.
  - reflexivity.
  - reflexivity.
  - apply isFist_short. cbn. lia.
  - unfold processResult.
    cbn [landmarks length Nat.ltb Nat.leb lookup list_lookup default
           from_option Datatypes.id replicate prop cbind].
    rewrite isFist_short; [reflexivity|]. cbn. lia.
  - by intros [].
Qed.

(** C4.  For an input with at least one hand (complete hands): [isFist]
    answers [true] exactly when at least 3 of the 4 non-thumb fingers are
    folded, a finger being folded when the planar distance of its tip to
    the wrist is strictly less than that of its PIP joint; and when hand 0
    is a fist, or hand 0 is not but a present hand 1 is, the output is
    CONTRACT with strength 1, whatever the wrist or pinch distances are. *)
Theorem fist_gives_contract
    (result : HandLandmarkerResult) (h0 : Hand) (rest : list Hand) :
  landmarks result = h0 :: rest ->
  complete h0 ->
  (forall h1, rest !! 0%nat = Some h1 -> complete h1) ->
  (forall h, h = h0 \/ rest !! 0%nat = Some h ->
     (isFist h = Normal true <-> (3 <= foldedCount h)%nat)
     /\ (isFist h = Normal false <-> (foldedCount h < 3)%nat))
  /\ ((3 <= foldedCount h0)%nat
      \/ ((foldedCount h0 < 3)%nat
          /\ exists h1, rest !! 0%nat = Some h1 /\ (3 <= foldedCount h1)%nat) ->
      processResult result
      = Normal {| type := CONTRACT; strength := 1;
                  rotationY := Some ((x (landmark_at h0 0) - 0.5) * PI * 2) |}).
Proof.
  intros Hl Hc0 Hc1. split.
  - intros h Hh.
    assert (Hc : complete h) by (destruct Hh as [->|Hh]; auto).
    rewrite (isFist_complete h Hc), <- fist_true, <- fist_false.
    split; split; congruence.
  - intros Hf. rewrite (processResult_first result h0 rest Hl Hc0 Hc1).
    destruct Hf as [Hf|[_ (h1 & Hh1 & Hf)]].
    + apply fist_true in Hf. rewrite Hf, orb_true_r. reflexivity.
    + destruct rest as [|h1' rest']; [discriminate|].
      injection Hh1 as ->. apply fist_true in Hf. by rewrite Hf.
Qed.

Lemma fist_gives_contract_witness :
  processResult {| landmarks := [closedHand] |}
  = Normal {| type := CONTRACT; strength := 1;
              rotationY := Some ((0 - 0.5) * PI * 2) |}.
Proof.
  assert (Hc : complete closedHand) by (unfold complete; simpl; lia).
  apply (fist_gives_contract {| landmarks := [closedHand] |} closedHand []
           eq_refl Hc).
  - intros h1 Hh1. discriminate Hh1.
  - left. apply fist_true, closedHand_fist.
Defined.

Lemma planarDist_points (a b c d : R) :
  planarDist {| x := a; y := b; z := 0 |} {| x := c; y := b; z := d |}
  = Rabs (a - c).
Proof.
  unfold planarDist. cbn [x y]. replace (b - b) with 0 by ring.
  apply hypot_0_r.
Qed.

(** Two complete open hands whose wrists are [d] apart. *)
Lemma processResult_two_points (d : R) :
  0.5 < d ->
  processResult {| landmarks := [pointHand 0 0; pointHand d 0] |}
  = Normal {| type := EXPAND; strength := (d - 0.5) * 2;
              rotationY := Some ((0 - 0.5) * PI * 2) |}.
Proof.
  intros Hd.
  rewrite (processResult_first {| landmarks := [pointHand 0 0; pointHand d 0] |}
             (pointHand 0 0) [pointHand d 0] eq_refl).
  - rewrite !pointHand_not_fist. cbn [orb].
    rewrite !pointHand_at by lia. cbn [x].
    rewrite planarDist_points.
    replace (Rabs (0 - d)) with d
      by (rewrite Rabs_left by lra; ring).
    destruct (Rgt_dec d 0.5) as [_|Hn]; [reflexivity|exfalso; lra].
  - apply pointHand_complete.
  - intros h1 Hh1. injection Hh1 as <-. apply pointHand_complete.
Qed.

(** C5.  When no fist is detected (on an input of at most two hands, as
    the landmarker is configured): with two hands the wrist-to-wrist planar
    distance [dist] gives EXPAND with strength [(dist - 0.5) * 2] if it
    exceeds 0.5; with one hand the thumb-tip-to-index-tip distance gives
    EXPAND with strength [(dist - 0.25) * 3] if it exceeds 0.25; otherwise
    the output is IDLE with strength 0.  The strength is not clamped: an
    input is exhibited whose strength exceeds 1. *)
Theorem expand_detection :
  (forall result : HandLandmarkerResult,
     (length (landmarks result) <= 2)%nat ->
     (forall h, h ∈ landmarks result -> isFist h = Normal false) ->
     match landmarks result with
     | [] =>
         processResult result
         = Normal {| type := IDLE; strength := 0; rotationY := None |}
     | [h0] =>
         let rot := Some ((x (landmark_at h0 0) - 0.5) * PI * 2) in
         let dist := planarDist (landmark_at h0 4) (landmark_at h0 8) in
         (dist > 0.25 ->
          processResult result
          = Normal {| type := EXPAND; strength := (dist - 0.25) * 3;
                      rotationY := rot |})
         /\ (dist <= 0.25 ->
             processResult result
             = Normal {| type := IDLE; strength := 0; rotationY := rot |})
     | h0 :: h1 :: _ =>
         let rot := Some ((x (landmark_at h0 0) - 0.5) * PI * 2) in
         let dist := planarDist (landmark_at h0 0) (landmark_at h1 0) in
         (dist > 0.5 ->
          processResult result
          = Normal {| type := EXPAND; strength := (dist - 0.5) * 2;
                      rotationY := rot |})
         /\ (dist <= 0.5 ->
             processResult result
             = Normal {| type := IDLE; strength := 0; rotationY := rot |})
     end)
  /\ (exists (result : HandLandmarkerResult) (st : GestureState),
        processResult result = Normal st
        /\ type st = EXPAND /\ 1 < strength st).
Proof.
  split.
  - intros [lms] Hlen Hno. cbn [landmarks] in *.
    destruct lms as [|h0 [|h1 [|h2 rest]]]; [reflexivity| | |simpl in Hlen; lia].
    + assert (Hf0 : isFist h0 = Normal false) by (apply Hno; repeat constructor).
      pose proof (isFist_Normal_complete _ _ Hf0) as Hc0.
      rewrite (isFist_complete h0 Hc0) in Hf0. injection Hf0 as Hf0.
      cbv zeta.
      rewrite (processResult_first {| landmarks := [h0] |} h0 [] eq_refl Hc0)
        by (intros ? [=]).
      rewrite Hf0. cbn [orb].
      split; intros Hd; destruct (Rgt_dec _ _); (reflexivity || exfalso; lra).
    + assert (Hf0 : isFist h0 = Normal false) by (apply Hno; repeat constructor).
      assert (Hf1 : isFist h1 = Normal false) by (apply Hno; repeat constructor).
      pose proof (isFist_Normal_complete _ _ Hf0) as Hc0.
      pose proof (isFist_Normal_complete _ _ Hf1) as Hc1.
      rewrite (isFist_complete h0 Hc0) in Hf0. injection Hf0 as Hf0.
      rewrite (isFist_complete h1 Hc1) in Hf1. injection Hf1 as Hf1.
      cbv zeta.
      rewrite (processResult_first {| landmarks := [h0; h1] |} h0 [h1] eq_refl Hc0)
        by (by intros ? [= <-]).
      rewrite Hf0, Hf1. cbn [orb].
      split; intros Hd; destruct (Rgt_dec _ _); (reflexivity || exfalso; lra).
  - eexists _, _. split; [apply (processResult_two_points 3); lra|].
    cbn [type strength]. split; [reflexivity|lra].
Qed.

Lemma expand_detection_witness :
  processResult {| landmarks := [pointHand 0 0; pointHand 0.6 0] |}
  = Normal {| type := EXPAND; strength := 0.2;
              rotationY := Some ((0 - 0.5) * PI * 2) |}.
Proof.
  pose proof (proj1 expand_detection
                {| landmarks := [pointHand 0 0; pointHand 0.6 0] |}) as H.
  cbn [landmarks] in H.
  assert (Hd : planarDist (landmark_at (pointHand 0 0) 0)
                 (landmark_at (pointHand 0.6 0) 0) = 0.6).
  { rewrite !pointHand_at by lia. rewrite planarDist_points.
    rewrite Rabs_left by lra. lra. }
  destruct H as [Hexp _].
  - simpl. lia.
  - intros h Hh.
    apply elem_of_cons in Hh as [->|Hh];
      [|apply elem_of_cons in Hh as [->|Hh]; [|by apply elem_of_nil in Hh]];
      (rewrite isFist_complete by apply pointHand_complete);
      by rewrite pointHand_not_fist.
  - rewrite Hexp by (rewrite Hd; lra).
    rewrite Hd. rewrite pointHand_at by lia. cbn [x].
    do 2 f_equal. lra.
Defined.

(** On complete hands the classifier always delivers a state, and the
    state's rotation is fixed by the first wrist alone. *)
Lemma processResult_rotation (result : HandLandmarkerResult)
    (h0 : Hand) (rest : list Hand) :
  landmarks result = h0 :: rest ->
  complete h0 ->
  (forall h1, rest !! 0%nat = Some h1 -> complete h1) ->
  exists st, processResult result = Normal st
             /\ rotationY st = Some ((x (landmark_at h0 0) - 0.5) * PI * 2).
Proof.
  intros Hl Hc0 Hc1.
  rewrite (processResult_first result h0 rest Hl Hc0 Hc1).
  destruct (_ || _); [by eexists|].
  destruct rest as [|h1 [|h2 rest']]; cbv zeta;
    match goal with |- context [Rgt_dec ?a ?c] => destruct (Rgt_dec a c) end;
    by eexists.
Qed.

(** C7.  With no hand the output is IDLE, strength 0, [rotationY]
    undefined.  With at least one hand (complete hands) a state is
    delivered and its [rotationY] is [(wrist0.x - 0.5) * 2 * PI], whichever
    gesture type is chosen: 0 for [wrist0.x = 0.5], [PI] for 1 and [-PI]
    for 0. *)
Theorem rotation_from_first_wrist (result : HandLandmarkerResult) :
  (landmarks result = [] ->
   processResult result
   = Normal {| type := IDLE; strength := 0; rotationY := None |})
  /\ (forall (h0 : Hand) (rest : list Hand),
        landmarks result = h0 :: rest ->
        complete h0 ->
        (forall h1, rest !! 0%nat = Some h1 -> complete h1) ->
        exists st,
          processResult result = Normal st
          /\ rotationY st = Some ((x (landmark_at h0 0) - 0.5) * (2 * PI))
          /\ (x (landmark_at h0 0) = 0.5 -> rotationY st = Some 0)
          /\ (x (landmark_at h0 0) = 1 -> rotationY st = Some PI)
          /\ (x (landmark_at h0 0) = 0 -> rotationY st = Some (- PI))).
Proof.
  split.
  - intros Hl. unfold processResult. by rewrite Hl.
  - intros h0 rest Hl Hc0 Hc1.
    destruct (processResult_rotation result h0 rest Hl Hc0 Hc1)
      as (st & Hst & Hrot).
    exists st. rewrite Hrot. split; [done|].
    repeat split; [|intros ->..]; f_equal; lra.
Qed.

Lemma rotation_from_first_wrist_witness :
  exists st,
    processResult {| landmarks := [pointHand 1 0] |} = Normal st
    /\ rotationY st = Some PI.
Proof.
  destruct (proj2 (rotation_from_first_wrist
                     {| landmarks := [pointHand 1 0] |})
              (pointHand 1 0) [] eq_refl (pointHand_complete 1 0))
    as (st & Hst & _ & _ & Hpi & _).
  - intros h1 Hh1. discriminate Hh1.
  - exists st. split; [exact Hst|]. apply Hpi.
    rewrite pointHand_at by lia. reflexivity.
Defined.

End Classifier.

(** * Properties of the particle system *)

Section Particles.

Import GestureHandler HeartSystem.

(** **** Active count *)

(** C1, as the code has it.  [setParticleCount(n)] stores [min(n, maxCount)]
    as the active count (and as the draw count): the count never exceeds
    [maxCount], and for [n >= 0] (on a system with [maxCount >= 0]) it is
    [n] clamped into [[0, maxCount]].  There is no lower clamp.  The
    position, home, velocity and colour buffers are left as they are. *)
Theorem setParticleCount_min (n : Z) (s : System) :
  currentCount (setParticleCount n s) = Z.min n (maxCount s)
  /\ (currentCount (setParticleCount n s) <= maxCount s)%Z
  /\ ((0 <= n)%Z -> (0 <= maxCount s)%Z ->
      currentCount (setParticleCount n s) = clamp 0 (maxCount s) n)
  /\ maxCount (setParticleCount n s) = maxCount s
  /\ posArray (setParticleCount n s) = posArray s
  /\ targetArray (setParticleCount n s) = targetArray s
  /\ velArray (setParticleCount n s) = velArray s
  /\ colorArray (setParticleCount n s) = colorArray s.
Proof.
  unfold setParticleCount, clamp. cbn.
  repeat split; try reflexivity; lia.
Qed.

Lemma setParticleCount_min_witness :
  currentCount (setParticleCount 7 exampleSystem) = clamp 0 2 7.
Proof.
  apply (setParticleCount_min 7 exampleSystem); reflexivity || (cbn; lia).
Defined.

(** C1 as stated fails: a negative count is stored as it is, not as 0. *)
Lemma setParticleCount_negative :
  currentCount (setParticleCount (-5) exampleSystem) = (-5)%Z
  /\ clamp 0 (maxCount exampleSystem) (-5) = 0%Z
  /\ ~ (0 <= currentCount (setParticleCount (-5) exampleSystem))%Z.
Proof. cbn. repeat split; lia. Qed.

(** **** The radial normalization *)

Lemma sqrt_sum3_nonneg (px py pz : R) : 0 <= sqrt (px * px + py * py + pz * pz).
Proof. apply sqrt_pos. Qed.

Lemma abs_le_sqrt_sum3 (px py pz : R) :
  Rabs px <= sqrt (px * px + py * py + pz * pz).
Proof.
  rewrite <- sqrt_Rsqr_abs. apply sqrt_le_1_alt. unfold Rsqr. nra.
Qed.

(** The denominator of the EXPAND force is the length of the position plus
    0.001, so it is at least 0.001 and never zero, at the origin too (where
    it is exactly 0.001 and the force is the zero vector). *)
Lemma expand_len_bounds (px py pz : R) :
  0.001 <= expand_len px py pz
  /\ 0 < expand_len px py pz
  /\ expand_len px py pz <> 0
  /\ Rabs (px / expand_len px py pz) < 1
  /\ expand_len 0 0 0 = 0.001
  /\ (forall push dt : R, 0 / expand_len 0 0 0 * push * dt = 0)
  /\ (forall (strength dt : R) (rot : option R),
        f_gesture {| type := EXPAND; strength := strength; rotationY := rot |}
          dt vzero = vzero).
Proof.
  pose proof (sqrt_sum3_nonneg px py pz) as Hs.
  pose proof (abs_le_sqrt_sum3 px py pz) as Ha.
  unfold expand_len.
  assert (Hpos : 0 < sqrt (px * px + py * py + pz * pz) + 0.001) by lra.
  repeat split; try lra.
  - unfold Rdiv. rewrite Rabs_mult, Rabs_inv, (Rabs_right (_ + _)) by lra.
    apply (Rmult_lt_reg_r (sqrt (px * px + py * py + pz * pz) + 0.001));
      [exact Hpos|].
    rewrite Rmult_assoc, Rinv_l by lra. lra.
  - replace (0 * 0 + 0 * 0 + 0 * 0) with 0 by ring. rewrite sqrt_0. lra.
  - intros push dt. unfold Rdiv. ring.
  - intros strength dt rot. unfold f_gesture, vscale, vzero. cbn [type x y z].
    f_equal; ring.
Qed.

(** **** The pulse *)

(** C10.  Whatever the accumulated time, the pulse
    [1 + sin(3 time) * 0.05 * (1 + sin(3 time + PI) * 0.5)] lies in
    [[0.925, 1.025]]; so the spring target [home * pulseScale] is [home]
    shrunk by at most 7.5% or enlarged by at most 2.5%. *)
Theorem beat_bounds (time home : R) :
  0.925 <= beat time <= 1.025
  /\ 0.925 * Rabs home <= Rabs (home * beat time) <= 1.025 * Rabs home
  /\ Rabs (home * beat time - home) <= 0.075 * Rabs home.
Proof.
  assert (Hb : 0.925 <= beat time <= 1.025).
  { unfold beat. rewrite neg_sin.
    pose proof (SIN_bound (time * 3)) as [Hlo Hhi]. nra. }
  split; [exact Hb|].
  pose proof (Rabs_pos home) as Hh.
  rewrite Rabs_mult, (Rabs_right (beat time)) by lra.
  replace (home * beat time - home) with (home * (beat time - 1)) by ring.
  rewrite Rabs_mult.
  assert (Hd : Rabs (beat time - 1) <= 0.075)
    by (apply Rabs_le; lra).
  repeat split; nra.
Qed.

(** **** Loops over the particles

    [initParticles] and [update] both run a body [f s i] for
    [i = 0, 1, ...]; what follows holds of any such loop whose body at
    [i] stores only into the three slots of particle [i]. *)

Section Loop.

Variable f : System -> nat -> System.

Lemma fold_left_seq_split (n a i : nat) (s : System) :
  (a <= i < a + n)%nat ->
  fold_left f (seq a n) s
  = fold_left f (seq (S i) (a + n - S i))
      (f (fold_left f (seq a (i - a)) s) i).
Proof.
  intros Hi.
  replace n with ((i - a) + (1 + (a + n - S i)))%nat at 1 by lia.
  rewrite !seq_app, !fold_left_app.
  replace (a + (i - a))%nat with i by lia.
  replace (i + 1)%nat with (S i) by lia. reflexivity.
Qed.

Section Field.

Context {A : Type} (proj : System -> A).
Hypothesis f_proj : forall s j, proj (f s j) = proj s.

Lemma fold_left_field (l : list nat) (s : System) :
  proj (fold_left f l s) = proj s.
Proof.
  revert s. induction l as [|j l IH]; intros s; [reflexivity|].
  cbn [fold_left]. by rewrite IH.
Qed.

End Field.

Section Buffer.

Variable arr : System -> list R.
Hypothesis f_arr : forall s j k,
  (k < j * 3 \/ j * 3 + 3 <= k)%nat -> arr (f s j) !! k = arr s !! k.

Lemma fold_left_buffer_frame (n a : nat) (s : System) (k : nat) :
  (k < a * 3 \/ (a + n) * 3 <= k)%nat ->
  arr (fold_left f (seq a n) s) !! k = arr s !! k.
Proof.
  revert a s. induction n as [|n IH]; intros a s Hk; [reflexivity|].
  cbn [seq fold_left]. rewrite IH by lia. apply f_arr. lia.
Qed.

End Buffer.

Hypothesis f_seed : forall s j, seed (f s j) = (seed s + 3)%nat.

Lemma fold_left_seed (n a : nat) (s : System) :
  seed (fold_left f (seq a n) s) = (seed s + 3 * n)%nat.
Proof.
  revert a s. induction n as [|n IH]; intros a s; [cbn; lia|].
  cbn [seq fold_left]. rewrite IH, f_seed. lia.
Qed.

End Loop.

(** **** The body of the update loop *)

(** Run a loop body down to the record it builds and the field asked
    for; what is not asked for is never computed. *)
Ltac run_body :=
  lazy beta iota zeta delta
    [update_particle resetParticle getHeartPoint Math_random
     maxCount currentCount posArray targetArray velArray colorArray time
     pulseSpeed params drawCount rotation_y seed].

Section UpdateBody.

Variable random : nat -> R.
Variables (dt pulseScale : R) (isExp isCon : bool) (handStrength : R).

Local Abbreviation body :=
  (update_particle random dt pulseScale isExp isCon handStrength).

Lemma update_particle_fields (s : System) (i : nat) :
  maxCount (body s i) = maxCount s
  /\ currentCount (body s i) = currentCount s
  /\ targetArray (body s i) = targetArray s
  /\ time (body s i) = time s
  /\ pulseSpeed (body s i) = pulseSpeed s
  /\ params (body s i) = params s
  /\ drawCount (body s i) = drawCount s
  /\ rotation_y (body s i) = rotation_y s
  /\ seed (body s i) = (seed s + 3)%nat.
Proof.
  destruct s, isExp, isCon; run_body; repeat split; lia.
Qed.

Lemma update_particle_frame (s : System) (i k : nat) :
  (k < i * 3 \/ i * 3 + 3 <= k)%nat ->
  posArray (body s i) !! k = posArray s !! k
  /\ velArray (body s i) !! k = velArray s !! k
  /\ colorArray (body s i) !! k = colorArray s !! k.
Proof.
  intros Hk. destruct s, isExp, isCon; run_body;
    repeat split; rewrite !list_lookup_insert_ne by lia; reflexivity.
Qed.

Lemma update_particle_length (s : System) (i : nat) :
  length (posArray (body s i)) = length (posArray s)
  /\ length (velArray (body s i)) = length (velArray s)
  /\ length (colorArray (body s i)) = length (colorArray s).
Proof.
  destruct s, isExp, isCon; run_body;
    repeat split; rewrite !length_insert; reflexivity.
Qed.

End UpdateBody.

Lemma aget_insert_eq (a : list R) (i : nat) (v : R) :
  (i < length a)%nat -> aget (<[i:=v]> a) i = v.
Proof. intros Hi. unfold aget. by rewrite list_lookup_insert_eq. Qed.

Lemma aget_insert_ne (a : list R) (i j : nat) (v : R) :
  i <> j -> aget (<[i:=v]> a) j = aget a j.
Proof. intros Hij. unfold aget. by rewrite list_lookup_insert_ne. Qed.

Lemma or_zero_id (v : R) : or_zero v = v.
Proof. unfold or_zero. by destruct (Req_dec_T v 0) as [->|]. Qed.

Ltac aget_simpl :=
  repeat first
    [ rewrite aget_insert_eq by (rewrite ?length_insert; lia)
    | rewrite aget_insert_ne by lia ].

(** One iteration of the loop on a particle that lies inside the buffers:
    what it leaves in the particle's three slots of each buffer. *)
Lemma update_particle_at (random : nat -> R) (dt pulseScale : R)
    (gesture : GestureState) (s : System) (i : nat) :
  (i * 3 + 3 <= length (posArray s))%nat ->
  (i * 3 + 3 <= length (velArray s))%nat ->
  (i * 3 + 3 <= length (colorArray s))%nat ->
  let s' := update_particle random dt pulseScale
              match type gesture with EXPAND => true | _ => false end
              match type gesture with CONTRACT => true | _ => false end
              (strength gesture) s i in
  let position := vec (posArray s) i in
  let force :=
    vadd (vadd (f_spring (params s) pulseScale (vec (targetArray s) i) position)
               (f_gesture gesture dt position))
         (f_noise (params s) (random (seed s)) (random (S (seed s)))
                  (random (S (S (seed s))))) in
  let velocity' := step_velocity (params s) (vec (velArray s) i) force in
  vec (velArray s') i = velocity'
  /\ vec (posArray s') i = step_position position velocity'
  /\ vec (colorArray s') i = step_color (params s) velocity'.
Proof.
  intros Hp Hv Hc s' position force velocity'.
  assert (Hvel : vec (velArray s') i = velocity').
  { subst s' velocity' force position. unfold f_gesture.
    destruct s; cbn [posArray velArray colorArray] in Hp, Hv, Hc.
    destruct (type gesture); run_body;
      unfold vec, step_velocity, vadd, f_spring, f_noise, vscale, vsub,
        vzero, expand_len, vlen, Rdiv;
      cbn [x y z]; aget_simpl; f_equal; ring. }
  assert (Hpos : vec (posArray s') i = step_position position velocity').
  { rewrite <- Hvel. subst s' position. clear Hvel.
    destruct s; cbn [posArray velArray colorArray] in Hp, Hv, Hc.
    destruct (type gesture); run_body;
      unfold vec, step_position, vadd; cbn [x y z]; aget_simpl;
      reflexivity. }
  split; [exact Hvel|]. split; [exact Hpos|].
  rewrite <- Hvel. subst s'. clear Hvel Hpos.
  destruct s; cbn [posArray velArray colorArray] in Hp, Hv, Hc.
  destruct (type gesture); run_body;
    unfold vec, step_color, vlen; cbn [x y z]; aget_simpl;
    repeat match goal with
           | |- context [sqrt (?a ^ 2 + ?b ^ 2 + ?c ^ 2)] =>
               replace (a ^ 2 + b ^ 2 + c ^ 2)
                 with (a * a + b * b + c * c) by ring
           end;
    reflexivity.
Qed.

Lemma vec_ext (a a' : list R) (i : nat) :
  (forall k, (i * 3 <= k < i * 3 + 3)%nat -> a' !! k = a !! k) ->
  vec a' i = vec a i.
Proof.
  intros H. unfold vec, aget.
  rewrite (H (i * 3)%nat), (H (i * 3 + 1)%nat), (H (i * 3 + 2)%nat) by lia.
  reflexivity.
Qed.

(** **** The whole update *)

Section Update.

Variable random : nat -> R.
Variables (dt : R) (gesture : GestureState).

(** The particle loop as [update] runs it: on the state whose time has
    been advanced, with the pulse at that time. *)
Local Abbreviation loop s :=
  (update_loop random dt (beat (time s + dt * pulseSpeed s))
     match type gesture with EXPAND => true | _ => false end
     match type gesture with CONTRACT => true | _ => false end
     (or_zero (strength gesture))
     (with_time (time s + dt * pulseSpeed s) s)).

Lemma update_buffers (s : System) :
  posArray (update random dt gesture s) = posArray (loop s)
  /\ velArray (update random dt gesture s) = velArray (loop s)
  /\ colorArray (update random dt gesture s) = colorArray (loop s)
  /\ targetArray (update random dt gesture s) = targetArray (loop s)
  /\ currentCount (update random dt gesture s) = currentCount (loop s)
  /\ maxCount (update random dt gesture s) = maxCount (loop s).
Proof.
  unfold update. destruct (rotationY gesture); repeat split.
Qed.

Lemma update_targetArray (s : System) :
  targetArray (update random dt gesture s) = targetArray s.
Proof.
  destruct (update_buffers s) as (_ & _ & _ & -> & _).
  unfold update_loop. rewrite (fold_left_field _ targetArray); [reflexivity|].
  intros s' j. apply update_particle_fields.
Qed.

Lemma update_currentCount (s : System) :
  currentCount (update random dt gesture s) = currentCount s
  /\ maxCount (update random dt gesture s) = maxCount s.
Proof.
  destruct (update_buffers s) as (_ & _ & _ & _ & -> & ->).
  unfold update_loop.
  rewrite (fold_left_field _ currentCount), (fold_left_field _ maxCount);
    [done|intros s' j; apply update_particle_fields..].
Qed.

(** Slots from [3 * currentCount] on are not stored into. *)
Lemma update_frame (s : System) (k : nat) :
  (3 * currentCount s <= Z.of_nat k)%Z ->
  posArray (update random dt gesture s) !! k = posArray s !! k
  /\ velArray (update random dt gesture s) !! k = velArray s !! k
  /\ colorArray (update random dt gesture s) !! k = colorArray s !! k.
Proof.
  intros Hk.
  destruct (update_buffers s) as (-> & -> & -> & _).
  unfold update_loop. cbn [currentCount with_time].
  rewrite (fold_left_buffer_frame _ posArray),
    (fold_left_buffer_frame _ velArray),
    (fold_left_buffer_frame _ colorArray);
    [done|try (intros s' j k' Hk'; by apply update_particle_frame); lia..].
Qed.

(** C3.  For every active particle [i] (inside the buffers) one
    [update(dt, gesture)] leaves in the buffers exactly: the velocity
    [(velocity + f_spring + f_gesture + f_noise) * damping], the forces
    taken at the old position and the pulse at the advanced time; the
    position [position + velocity'] with that damped velocity; and the
    colour [lerp(color1, color2, min(|velocity'| * 0.5, 1))], which no
    previous content of the colour buffer influences. *)
Theorem update_integration (s : System) (i : nat) :
  (Z.of_nat i < currentCount s)%Z ->
  (i * 3 + 3 <= length (posArray s))%nat ->
  (i * 3 + 3 <= length (targetArray s))%nat ->
  (i * 3 + 3 <= length (velArray s))%nat ->
  (i * 3 + 3 <= length (colorArray s))%nat ->
  let s' := update random dt gesture s in
  let pulseScale := beat (time s + dt * pulseSpeed s) in
  let position := vec (posArray s) i in
  let home := vec (targetArray s) i in
  let force :=
    vadd (vadd (f_spring (params s) pulseScale home position)
               (f_gesture gesture dt position))
         (f_noise (params s) (random (seed s + 3 * i))
                  (random (seed s + 3 * i + 1))
                  (random (seed s + 3 * i + 2))) in
  let velocity' := step_velocity (params s) (vec (velArray s) i) force in
  vec (velArray s') i = velocity'
  /\ vec (posArray s') i = step_position position velocity'
  /\ vec (colorArray s') i = step_color (params s) velocity'
  /\ (forall colors : list R,
        length colors = length (colorArray s) ->
        vec (colorArray (update random dt gesture (with_color colors s))) i
        = vec (colorArray s') i).
Proof.
  intros Hi Hp _ Hv Hc.
  assert (Hmain : forall s0 : System,
    (Z.of_nat i < currentCount s0)%Z ->
    (i * 3 + 3 <= length (posArray s0))%nat ->
    (i * 3 + 3 <= length (velArray s0))%nat ->
    (i * 3 + 3 <= length (colorArray s0))%nat ->
    let force0 :=
      vadd (vadd (f_spring (params s0) (beat (time s0 + dt * pulseSpeed s0))
                    (vec (targetArray s0) i) (vec (posArray s0) i))
                 (f_gesture gesture dt (vec (posArray s0) i)))
           (f_noise (params s0) (random (seed s0 + 3 * i))
                    (random (seed s0 + 3 * i + 1))
                    (random (seed s0 + 3 * i + 2))) in
    let v0 := step_velocity (params s0) (vec (velArray s0) i) force0 in
    vec (velArray (update random dt gesture s0)) i = v0
    /\ vec (posArray (update random dt gesture s0)) i
       = step_position (vec (posArray s0) i) v0
    /\ vec (colorArray (update random dt gesture s0)) i
       = step_color (params s0) v0).
  { clear s Hi Hp Hv Hc. intros s Hi Hp Hv Hc force0 v0.
    destruct (update_buffers s) as (-> & -> & -> & _).
    unfold update_loop. cbn [currentCount with_time]. rewrite or_zero_id.
    set (f := update_particle random dt (beat (time s + dt * pulseSpeed s))
                match type gesture with EXPAND => true | _ => false end
                match type gesture with CONTRACT => true | _ => false end
                (strength gesture)).
    set (s0 := with_time (time s + dt * pulseSpeed s) s).
    rewrite (fold_left_seq_split f (Z.to_nat (currentCount s)) 0 i s0)
      by lia.
    set (si := fold_left f (seq 0 (i - 0)) s0).
    assert (Hfr : forall arr : System -> list R,
              (forall s1 j k, (k < j * 3 \/ j * 3 + 3 <= k)%nat ->
                              arr (f s1 j) !! k = arr s1 !! k) ->
              vec (arr (fold_left f (seq (S i)
                          (0 + Z.to_nat (currentCount s) - S i)) (f si i))) i
              = vec (arr (f si i)) i).
    { intros arr Harr. apply vec_ext. intros k Hk.
      apply (fold_left_buffer_frame f arr Harr). lia. }
    rewrite (Hfr posArray), (Hfr velArray), (Hfr colorArray)
      by (intros s1 j k Hk; by apply update_particle_frame).
    assert (Hsi : forall arr : System -> list R,
              (forall s1 j k, (k < j * 3 \/ j * 3 + 3 <= k)%nat ->
                              arr (f s1 j) !! k = arr s1 !! k) ->
              vec (arr si) i = vec (arr s0) i).
    { intros arr Harr. apply vec_ext. intros k Hk.
      apply (fold_left_buffer_frame f arr Harr). lia. }
    assert (Hlen : forall arr : System -> list R,
              (forall s1 j, length (arr (f s1 j)) = length (arr s1)) ->
              length (arr si) = length (arr s0)).
    { intros arr Harr.
      apply (fold_left_field f (fun s1 => length (arr s1)) Harr). }
    pose proof (update_particle_at random dt
                  (beat (time s + dt * pulseSpeed s)) gesture si i) as Hat.
    fold f in Hat. cbv zeta in Hat.
    rewrite (Hsi posArray), (Hsi velArray) in Hat
      by (intros s1 j k Hk; by apply update_particle_frame).
    assert (Htg : targetArray si = targetArray s0)
      by (apply (fold_left_field f targetArray); intros;
          apply update_particle_fields).
    assert (Hpa : params si = params s0)
      by (apply (fold_left_field f params); intros;
          apply update_particle_fields).
    assert (Hse : seed si = (seed s0 + 3 * (i - 0))%nat)
      by (apply fold_left_seed; intros; apply update_particle_fields).
    rewrite Htg, Hpa, Hse in Hat.
    replace (seed s0 + 3 * (i - 0))%nat with (seed s + 3 * i)%nat in Hat
      by (subst s0; cbn; lia).
    replace (S (seed s + 3 * i)) with (seed s + 3 * i + 1)%nat in Hat by lia.
    replace (S (seed s + 3 * i + 1)) with (seed s + 3 * i + 2)%nat in Hat
      by lia.
    apply Hat.
    - rewrite (Hlen posArray) by (intros; apply update_particle_length).
      exact Hp.
    - rewrite (Hlen velArray) by (intros; apply update_particle_length).
      exact Hv.
    - rewrite (Hlen colorArray) by (intros; apply update_particle_length).
      exact Hc. }
  cbv zeta.
  destruct (Hmain s Hi Hp Hv Hc) as (H1 & H2 & H3).
  repeat split; [exact H1|exact H2|exact H3|].
  intros colors Hcol.
  destruct (Hmain (with_color colors s)) as (_ & _ & H3');
    [exact Hi|exact Hp|exact Hv|cbn; lia|].
  rewrite H3, H3'. reflexivity.
Qed.

End Update.

Lemma update_integration_witness :
  let gesture := {| type := CONTRACT; strength := 1; rotationY := None |} in
  let s' := update halves 0.016 gesture exampleSystem in
  vec (posArray s') 1
  = step_position (vec (posArray exampleSystem) 1) (vec (velArray s') 1).
Proof.
  intros gesture s'.
  destruct (update_integration halves 0.016 gesture exampleSystem 1)
    as (Hv & Hp & _); [cbn; lia..|].
  subst s'. rewrite Hp, Hv. reflexivity.
Defined.

(** **** What a step leaves alone *)

Lemma run_frame (random : nat -> R) (frames : list (R * GestureState))
    (s : System) :
  targetArray (run random frames s) = targetArray s
  /\ currentCount (run random frames s) = currentCount s
  /\ maxCount (run random frames s) = maxCount s
  /\ forall k : nat,
       (3 * currentCount s <= Z.of_nat k)%Z ->
       posArray (run random frames s) !! k = posArray s !! k
       /\ velArray (run random frames s) !! k = velArray s !! k
       /\ colorArray (run random frames s) !! k = colorArray s !! k.
Proof.
  unfold run. revert s.
  induction frames as [|[dt gesture] frames IH]; intros s; [done|].
  cbn [fold_left fst snd].
  destruct (IH (update random dt gesture s)) as (Ht & Hc & Hm & Hk).
  destruct (update_currentCount random dt gesture s) as [Hc' Hm'].
  rewrite Ht, Hc, Hm, Hc', Hm', update_targetArray.
  do 3 (split; [reflexivity|]). intros k Hle.
  destruct (Hk k) as (Hkp & Hkv & Hkc); [by rewrite Hc'|].
  rewrite Hkp, Hkv, Hkc. by apply update_frame.
Qed.

(** C9.  A step leaves the home buffer as it is, and leaves every slot of
    the position, velocity and colour buffers from [3 * activeCount] on (the
    particles of index [>= activeCount]) as it is.  So after shrinking the
    active count to [m], any number of steps, and setting it again to any
    [n], the home buffer and the slots of the particles of index
    [>= min(m, maxCount)] hold what they held before. *)
Theorem update_frame_effect (random : nat -> R) (s : System) :
  (forall (dt : R) (gesture : GestureState),
     targetArray (update random dt gesture s) = targetArray s
     /\ forall k : nat,
          (3 * currentCount s <= Z.of_nat k)%Z ->
          posArray (update random dt gesture s) !! k = posArray s !! k
          /\ velArray (update random dt gesture s) !! k = velArray s !! k
          /\ colorArray (update random dt gesture s) !! k
             = colorArray s !! k)
  /\ (forall (m n : Z) (frames : list (R * GestureState)),
        let s' := setParticleCount n
                    (run random frames (setParticleCount m s)) in
        targetArray s' = targetArray s
        /\ currentCount s' = Z.min n (maxCount s)
        /\ forall k : nat,
             (3 * Z.min m (maxCount s) <= Z.of_nat k)%Z ->
             posArray s' !! k = posArray s !! k
             /\ velArray s' !! k = velArray s !! k
             /\ colorArray s' !! k = colorArray s !! k).
Proof.
  split.
  - intros dt gesture. split; [apply update_targetArray|].
    intros k Hk. by apply update_frame.
  - intros m n frames s'. subst s'.
    destruct (run_frame random frames (setParticleCount m s))
      as (Ht & Hc & Hm & Hk).
    repeat split.
    + cbn. exact Ht.
    + cbn. by rewrite Hm.
    + cbn. by destruct (Hk k) as (-> & _).
    + cbn. by destruct (Hk k) as (_ & -> & _).
    + cbn. by destruct (Hk k) as (_ & _ & ->).
Qed.

Lemma update_frame_effect_witness :
  let gesture := {| type := EXPAND; strength := 1; rotationY := Some 0 |} in
  let s' := setParticleCount 2
              (run halves [(0.016, gesture); (0.016, gesture)]
                 (setParticleCount 1 exampleSystem)) in
  posArray s' !! 3%nat = Some 4
  /\ velArray s' !! 3%nat = Some 0
  /\ colorArray s' !! 3%nat = Some 0.
Proof.
  intros gesture s'.
  destruct (proj2 (update_frame_effect halves exampleSystem) 1%Z 2%Z
              [(0.016, gesture); (0.016, gesture)]) as (_ & _ & Hk).
  apply (Hk 3%nat). cbn. lia.
Defined.

(** **** The generator *)

Section Generator.

Variable random : nat -> R.

Lemma resetParticle_fields (s : System) (i : nat) :
  maxCount (resetParticle random s i) = maxCount s
  /\ currentCount (resetParticle random s i) = currentCount s
  /\ colorArray (resetParticle random s i) = colorArray s
  /\ seed (resetParticle random s i) = (seed s + 3)%nat.
Proof. destruct s. run_body. repeat split. lia. Qed.

Lemma resetParticle_frame (s : System) (i k : nat) :
  (k < i * 3 \/ i * 3 + 3 <= k)%nat ->
  posArray (resetParticle random s i) !! k = posArray s !! k
  /\ targetArray (resetParticle random s i) !! k = targetArray s !! k
  /\ velArray (resetParticle random s i) !! k = velArray s !! k.
Proof.
  intros Hk. destruct s. run_body.
  repeat split; rewrite !list_lookup_insert_ne by lia; reflexivity.
Qed.

Lemma resetParticle_length (s : System) (i : nat) :
  length (posArray (resetParticle random s i)) = length (posArray s)
  /\ length (targetArray (resetParticle random s i))
     = length (targetArray s)
  /\ length (velArray (resetParticle random s i)) = length (velArray s).
Proof.
  destruct s. run_body.
  repeat split; rewrite !length_insert; reflexivity.
Qed.

(** What [resetParticle(i)] stores for a particle inside the buffers. *)
Lemma resetParticle_at (s : System) (i : nat) :
  (i * 3 + 3 <= length (posArray s))%nat ->
  (i * 3 + 3 <= length (targetArray s))%nat ->
  (i * 3 + 3 <= length (velArray s))%nat ->
  let t := random (seed s) * PI * 2 in
  let r := sqrt (random (S (seed s))) in
  let p := {| x := heartX t * r; y := heartY t * r + 2;
              z := (random (S (S (seed s))) - 0.5) * 10 * r |} in
  vec (targetArray (resetParticle random s i)) i = p
  /\ vec (posArray (resetParticle random s i)) i = p
  /\ vec (velArray (resetParticle random s i)) i = vzero.
Proof.
  destruct s. run_body. intros Hp Ht Hv.
  unfold vec, vzero, heartX, heartY. cbn [x y z]. aget_simpl. done.
Qed.

(** [before s i] is the state in which the loop of [initParticles] reaches
    particle [i]. *)
Local Abbreviation before s i := (resetParticles random i s).

Lemma before_seed (s : System) (i : nat) :
  seed (before s i) = (seed s + 3 * i)%nat
  /\ S (seed (before s i)) = (seed s + 3 * i + 1)%nat
  /\ S (S (seed (before s i))) = (seed s + 3 * i + 2)%nat.
Proof.
  assert (H : seed (before s i) = (seed s + 3 * i)%nat)
    by (apply fold_left_seed; intros; apply resetParticle_fields).
  rewrite H. lia.
Qed.

Lemma before_length (s : System) (i : nat) :
  length (posArray (before s i)) = length (posArray s)
  /\ length (targetArray (before s i)) = length (targetArray s)
  /\ length (velArray (before s i)) = length (velArray s).
Proof.
  unfold resetParticles. repeat split.
  - apply (fold_left_field _ (fun s1 => length (posArray s1))).
    intros; apply resetParticle_length.
  - apply (fold_left_field _ (fun s1 => length (targetArray s1))).
    intros; apply resetParticle_length.
  - apply (fold_left_field _ (fun s1 => length (velArray s1))).
    intros; apply resetParticle_length.
Qed.

(** After the whole loop, particle [i] of a buffer holds what iteration
    [i] stored. *)
Lemma initParticles_slot (s : System) (i : nat)
    (arr : System -> list R) :
  (Z.of_nat i < maxCount s)%Z ->
  (forall s1 j k, (k < j * 3 \/ j * 3 + 3 <= k)%nat ->
                  arr (resetParticle random s1 j) !! k = arr s1 !! k) ->
  vec (arr (initParticles random s)) i
  = vec (arr (resetParticle random (before s i) i)) i.
Proof.
  intros Hi Harr. unfold initParticles, resetParticles.
  rewrite (fold_left_seq_split _ (Z.to_nat (maxCount s)) 0 i s) by lia.
  rewrite Nat.sub_0_r. apply vec_ext. intros k Hk.
  apply (fold_left_buffer_frame _ arr Harr). lia.
Qed.

(** C6.  [initParticles] (construction and reset) gives particle [i] the
    home point made from its three draws [u0, u1, u2] in [[0, 1)]: with
    [t = u0 * 2 PI] in [[0, 2 PI)] and [r = sqrt u1] in [[0, 1)], the
    home is [(16 sin^3 t * r, (13 cos t - 5 cos 2t - 2 cos 3t - cos 4t) * r
    + 2, z)] with [z = (u2 - 0.5) * 10 * r] in [[-5 r, 5 r]]; the position
    starts on the home and the velocity at zero.  At scale 1
    [getHeartPoint] returns the curve's [x(t)] and [y(t)] themselves. *)
Theorem initParticles_home (s : System) (i : nat) :
  (forall k : nat, 0 <= random k < 1) ->
  (Z.of_nat i < maxCount s)%Z ->
  (i * 3 + 3 <= length (posArray s))%nat ->
  (i * 3 + 3 <= length (targetArray s))%nat ->
  (i * 3 + 3 <= length (velArray s))%nat ->
  let t := random (seed s + 3 * i) * PI * 2 in
  let r := sqrt (random (seed s + 3 * i + 1)) in
  let zc := (random (seed s + 3 * i + 2) - 0.5) * 10 * r in
  let home := {| x := heartX t * r; y := heartY t * r + 2; z := zc |} in
  (0 <= t < 2 * PI /\ 0 <= r < 1 /\ - 5 * r <= zc <= 5 * r)
  /\ vec (targetArray (initParticles random s)) i = home
  /\ vec (posArray (initParticles random s)) i = home
  /\ vec (velArray (initParticles random s)) i = vzero
  /\ (forall k : nat,
        x (fst (getHeartPoint random t 1 k)) = heartX t
        /\ y (fst (getHeartPoint random t 1 k)) = heartY t).
Proof.
  intros Hran Hi Hp Ht Hv t r zc home.
  destruct (before_length s i) as (Lp & Lt & Lv).
  destruct (before_seed s i) as (S0 & S1 & S2).
  split; [|split; [|split; [|split]]].
  - pose proof (Hran (seed s + 3 * i)%nat) as H0.
    pose proof (Hran (seed s + 3 * i + 1)%nat) as H1.
    pose proof (Hran (seed s + 3 * i + 2)%nat) as H2.
    pose proof PI_RGT_0 as Hpi.
    assert (Hr : 0 <= r < 1).
    { subst r. split; [apply sqrt_pos|].
      pose proof (sqrt_lt_1_alt (random (seed s + 3 * i + 1)) 1) as Hlt.
      rewrite sqrt_1 in Hlt. apply Hlt. lra. }
    subst t zc. repeat split; nra.
  - rewrite (initParticles_slot s i targetArray) by
      (lia || (intros; by apply resetParticle_frame)).
    destruct (resetParticle_at (before s i) i) as (-> & _);
      [by rewrite Lp|by rewrite Lt|by rewrite Lv|].
    by rewrite S2, S1, S0.
  - rewrite (initParticles_slot s i posArray) by
      (lia || (intros; by apply resetParticle_frame)).
    destruct (resetParticle_at (before s i) i) as (_ & -> & _);
      [by rewrite Lp|by rewrite Lt|by rewrite Lv|].
    by rewrite S2, S1, S0.
  - rewrite (initParticles_slot s i velArray) by
      (lia || (intros; by apply resetParticle_frame)).
    destruct (resetParticle_at (before s i) i) as (_ & _ & ->);
      [by rewrite Lp|by rewrite Lt|by rewrite Lv|].
    reflexivity.
  - intros k. unfold getHeartPoint, Math_random, heartX, heartY.
    cbn [fst x y]. split; ring.
Qed.

End Generator.

Lemma halves_range (k : nat) : 0 <= halves k < 1.
Proof. unfold halves. lra. Qed.

Lemma initParticles_home_witness :
  vec (velArray (initParticles halves exampleSystem)) 1 = vzero.
Proof.
  apply (initParticles_home halves exampleSystem 1 halves_range);
    cbn; lia.
Defined.

End Particles.

(** * More about the classifier *)

Section ClassifierMore.

Import GestureHandler.

(** **** When a state is delivered *)

Lemma processResult_incomplete (result : HandLandmarkerResult)
    (h0 : Hand) (rest : list Hand) :
  landmarks result = h0 :: rest ->
  ~ complete h0 \/ (exists h1, rest !! 0%nat = Some h1 /\ ~ complete h1) ->
  processResult result = Throw TypeError.
Proof.
  intros Hl Hbad. unfold processResult. rewrite Hl.
  cbn [length Nat.ltb Nat.leb lookup list_lookup default from_option
         Datatypes.id].
  destruct (h0 !! 0%nat) as [w|] eqn:Hw; [|reflexivity].
  cbn [prop cbind].
  destruct Hbad as [Hbad|(h1 & Hh1 & Hbad)].
  - rewrite isFist_short; [reflexivity|]. unfold complete in Hbad. lia.
  - destruct rest as [|h1' rest']; [discriminate|]. injection Hh1 as ->.
    destruct (isFist h0) as [f0|e]; [|apply throw_TypeError].
    cbn [cbind length Nat.ltb Nat.leb lookup list_lookup default
           from_option Datatypes.id].
    rewrite isFist_short; [reflexivity|]. unfold complete in Hbad. lia.
Qed.

Lemma complete_dec (h : Hand) : complete h \/ ~ complete h.
Proof. unfold complete. lia. Qed.

(** X1.  On an input with at least one hand, [processResult] delivers a
    state exactly when the first hand, and the second if there is one, have
    all 21 landmarks; otherwise it throws. *)
Theorem processResult_delivers_iff (result : HandLandmarkerResult)
    (h0 : Hand) (rest : list Hand) :
  landmarks result = h0 :: rest ->
  ((exists st, processResult result = Normal st)
   <-> complete h0 /\ (forall h1, rest !! 0%nat = Some h1 -> complete h1))
  /\ (processResult result = Throw TypeError
      <-> ~ complete h0
          \/ (exists h1, rest !! 0%nat = Some h1 /\ ~ complete h1)).
Proof.
  intros Hl.
  assert (Hok : complete h0 /\ (forall h1, rest !! 0%nat = Some h1 -> complete h1)
                -> exists st, processResult result = Normal st).
  { intros [Hc0 Hc1].
    destruct (processResult_rotation result h0 rest Hl Hc0 Hc1) as (st & Hst & _).
    by exists st. }
  assert (Hcases : (complete h0
                    /\ (forall h1, rest !! 0%nat = Some h1 -> complete h1))
                   \/ (~ complete h0
                       \/ (exists h1, rest !! 0%nat = Some h1 /\ ~ complete h1))).
  { destruct (complete_dec h0) as [Hc0|Hn0]; [|by right; left].
    destruct (rest !! 0%nat) as [h1|] eqn:Hh1.
    - destruct (complete_dec h1) as [Hc1|Hn1].
      + left. split; [done|]. by intros ? [= <-].
      + right. right. by exists h1.
    - left. split; [done|]. intros ? [=]. }
  split; split.
  - intros (st & Hst). destruct Hcases as [Hc|Hbad]; [exact Hc|].
    rewrite (processResult_incomplete result h0 rest Hl Hbad) in Hst.
    discriminate.
  - exact Hok.
  - intros Hthrow. destruct Hcases as [Hc|Hbad]; [|exact Hbad].
    destruct (Hok Hc) as (st & Hst). rewrite Hst in Hthrow. discriminate.
  - apply processResult_incomplete. exact Hl.
Qed.

Lemma processResult_delivers_iff_witness :
  exists st, processResult {| landmarks := [closedHand; pointHand 0 0] |}
             = Normal st.
Proof.
  apply (processResult_delivers_iff
           {| landmarks := [closedHand; pointHand 0 0] |}
           closedHand [pointHand 0 0] eq_refl).
  split.
  - unfold complete. simpl. lia.
  - intros h1 Hh1. injection Hh1 as <-. apply pointHand_complete.
Defined.

Lemma processResult_Normal_complete (result : HandLandmarkerResult)
    (st : GestureState) (h0 : Hand) (rest : list Hand) :
  processResult result = Normal st ->
  landmarks result = h0 :: rest ->
  complete h0 /\ (forall h1, rest !! 0%nat = Some h1 -> complete h1).
Proof.
  intros Hst Hl.
  destruct (complete_dec h0) as [Hc0|Hn0].
  - split; [done|]. intros h1 Hh1.
    destruct (complete_dec h1) as [Hc1|Hn1]; [done|].
    rewrite (processResult_incomplete result h0 rest Hl) in Hst;
      [discriminate|]. right. by exists h1.
  - rewrite (processResult_incomplete result h0 rest Hl) in Hst;
      [discriminate|]. by left.
Qed.

(** Splits a delivered state into the branches of [processResult]. *)
Ltac by_branch Hst :=
  let Hl := fresh "Hl" in
  match type of Hst with
  | processResult ?result = Normal ?st =>
      destruct (landmarks result) as [|?h0 ?rest] eqn:Hl;
      [ unfold processResult in Hst; rewrite Hl in Hst;
        cbn [length Nat.ltb Nat.leb] in Hst; injection Hst as <-
      | let Hc := fresh "Hc" in
        pose proof (processResult_Normal_complete _ _ _ _ Hst Hl) as Hc;
        destruct Hc as [?Hc0 ?Hc1];
        rewrite (processResult_first result _ _ Hl) in Hst by assumption;
        cbv zeta in Hst;
        destruct (_ || _) in Hst;
        [ injection Hst as <-
        | repeat match type of Hst with
            | context [match ?l with [] => _ | _ :: _ => _ end] =>
                destruct l
            end;
          match type of Hst with
          | context [Rgt_dec ?a ?c] => destruct (Rgt_dec a c)
          end;
          injection Hst as <- ] ]
  end.

(** X2.  In a delivered state the strength goes with the type: IDLE has
    strength 0, CONTRACT has strength 1, EXPAND has a strength above 0; so
    the strength is 0 exactly in IDLE.  The rotation is undefined exactly
    when no hand was detected. *)
Theorem processResult_strength_by_type (result : HandLandmarkerResult)
    (st : GestureState) :
  processResult result = Normal st ->
  match type st with
  | IDLE => strength st = 0
  | CONTRACT => strength st = 1
  | EXPAND => 0 < strength st
  end
  /\ (strength st = 0 <-> type st = IDLE)
  /\ (rotationY st = None <-> landmarks result = []).
Proof.
  intros Hst. by_branch Hst; cbn [type strength rotationY];
    repeat split; try done; try lra; intros; exfalso; lra.
Qed.

Lemma processResult_strength_by_type_witness :
  0 < strength {| type := EXPAND; strength := (0.6 - 0.5) * 2;
                  rotationY := Some ((0 - 0.5) * PI * 2) |}.
Proof.
  assert (H : 0.5 < 0.6) by lra.
  apply (processResult_strength_by_type
           {| landmarks := [pointHand 0 0; pointHand 0.6 0] |} _
           (processResult_two_points 0.6 H)).
Defined.

(** **** Bounds on normalized input *)

Lemma sqrt2_lt : sqrt 2 < 1.415.
Proof.
  rewrite <- (sqrt_square 1.415) by lra. apply sqrt_lt_1_alt. lra.
Qed.

Lemma planarDist_normalized (p q : Landmark) :
  normalized p -> normalized q -> 0 <= planarDist p q <= sqrt 2.
Proof.
  intros [Hpx Hpy] [Hqx Hqy]. unfold planarDist, hypot.
  split; [apply sqrt_pos|]. apply sqrt_le_1_alt. nra.
Qed.

Lemma landmark_at_normalized (h : Hand) (k : nat) :
  Forall normalized h -> (k < length h)%nat -> normalized (landmark_at h k).
Proof.
  intros Hn Hk. apply (Forall_lookup_1 _ _ k _ Hn).
  by apply lookup_landmark_at.
Qed.

(** X3.  When the landmarks of the hands are normalized (coordinates in
    [[0, 1]]), a delivered state has a strength in [[0, 3.5)] and, if it has
    a rotation, one in [[-PI, PI]]. *)
Theorem processResult_bounds (result : HandLandmarkerResult)
    (st : GestureState) :
  processResult result = Normal st ->
  Forall (Forall normalized) (landmarks result) ->
  0 <= strength st < 3.5
  /\ (forall rot, rotationY st = Some rot -> - PI <= rot <= PI).
Proof.
  intros Hst Hn. pose proof sqrt2_lt as H2. pose proof PI_RGT_0 as Hpi.
  by_branch Hst; cbn [type strength rotationY];
    (split; [|intros rot Hrot; try discriminate]).
  all: repeat match goal with
         | H : Forall _ (_ :: _) |- _ => apply Forall_cons in H as [? ?]
         | H : forall h1, (?h :: _) !! 0%nat = Some h1 -> complete h1 |- _ =>
             pose proof (H h eq_refl); clear H
         end.
  all: try match goal with
         | Hrot : Some _ = Some ?rot |- _ <= ?rot <= _ =>
             injection Hrot as <-;
             match goal with
             | |- context [landmark_at ?h 0] =>
                 assert (Hw : normalized (landmark_at h 0))
                   by (apply landmark_at_normalized;
                       [assumption|unfold complete in *; lia]);
                 destruct Hw as [Hwx _]; nra
             end
         end.
  all: try lra.
  all: match goal with
       | |- context [planarDist ?p ?q] =>
           destruct (planarDist_normalized p q);
           [apply landmark_at_normalized;
            [assumption|unfold complete in *; lia]..|];
           lra
       end.
Qed.

Lemma processResult_bounds_witness :
  0 <= strength {| type := EXPAND; strength := (0.6 - 0.5) * 2;
                   rotationY := Some ((0 - 0.5) * PI * 2) |} < 3.5.
Proof.
  assert (H : 0.5 < 0.6) by lra.
  apply (processResult_bounds
           {| landmarks := [pointHand 0 0; pointHand 0.6 0] |} _
           (processResult_two_points 0.6 H)).
  cbn [landmarks].
  assert (Hn : forall a, 0 <= a <= 1 -> Forall normalized (pointHand a 0)).
  { intros a Ha. apply Forall_replicate. unfold normalized. cbn [x y]. lra. }
  apply Forall_cons. split; [apply Hn; lra|].
  apply Forall_cons. split; [apply Hn; lra|]. apply Forall_nil_2.
Defined.

(** **** Moving the hands *)

Section Moved.

(** A change of the landmarks that keeps the differences of their planar
    coordinates. *)
Variable f : Landmark -> Landmark.
Hypothesis f_dx : forall p q, x (f p) - x (f q) = x p - x q.
Hypothesis f_dy : forall p q, y (f p) - y (f q) = y p - y q.

Lemma distToWrist_moved (h h' : Hand) (k : nat) :
  distToWrist (f <$> h) ((f <$> h') !! 0%nat) k
  = distToWrist h (h' !! 0%nat) k.
Proof.
  unfold distToWrist. rewrite !list_lookup_fmap.
  destruct (h !! k) as [p|]; [|reflexivity].
  destruct (h' !! 0%nat) as [w|]; [|reflexivity].
  cbn [fmap option_fmap option_map prop cbind]. by rewrite f_dx, f_dy.
Qed.

Lemma isFist_moved (h : Hand) : isFist (f <$> h) = isFist h.
Proof.
  unfold isFist. cbn [seq isFist_loop]. unfold isFist_body.
  by rewrite !distToWrist_moved.
Qed.

(** The classifier on the moved hands: the same completion, the same type
    and strength, the rotation taken from the moved first wrist. *)
Lemma processResult_moved (lms : list Hand) :
  processResult {| landmarks := (fun h : Hand => f <$> h) <$> lms |}
  = cmap (with_rotationY
            ((x (f (landmark_at (default [] (lms !! 0%nat)) 0)) - 0.5)
             * PI * 2))
      (processResult {| landmarks := lms |}).
Proof.
  unfold processResult. cbn [landmarks]. rewrite length_fmap.
  destruct lms as [|h0 rest]; [reflexivity|].
  cbn [length Nat.ltb Nat.leb fmap list_fmap lookup list_lookup default
         from_option Datatypes.id].
  change (list_fmap Landmark Landmark f h0) with (f <$> h0).
  rewrite list_lookup_fmap. unfold landmark_at.
  destruct (h0 !! 0%nat) as [w|] eqn:Hw; [|reflexivity].
  cbn [fmap option_fmap option_map prop cbind default from_option Datatypes.id].
  rewrite isFist_moved.
  destruct (isFist h0) as [b0|e]; [|reflexivity]. cbn [cbind].
  destruct rest as [|h1 rest'].
  - cbn [length Nat.ltb Nat.leb Nat.eqb cbind].
    destruct b0; [reflexivity|].
    rewrite !list_lookup_fmap.
    destruct (h0 !! 4%nat) as [p4|]; [|reflexivity].
    destruct (h0 !! 8%nat) as [p8|]; [|reflexivity].
    cbn [fmap option_fmap option_map prop cbind]. rewrite f_dx, f_dy.
    by destruct (Rgt_dec _ _).
  - cbn [length Nat.ltb Nat.leb fmap list_fmap lookup list_lookup default
           from_option Datatypes.id cbind].
    change (list_fmap Landmark Landmark f h1) with (f <$> h1).
    rewrite isFist_moved.
    destruct (isFist h1) as [b1|e]; [|reflexivity]. cbn [cbind].
    destruct b1; [reflexivity|]. destruct b0; [reflexivity|].
    destruct rest' as [|h2 rest'']; cbn [length Nat.eqb].
    + rewrite !list_lookup_fmap.
      destruct (h1 !! 0%nat) as [w1|]; [|reflexivity].
      cbn [fmap option_fmap option_map prop cbind]. rewrite f_dx, f_dy.
      by destruct (Rgt_dec _ _).
    + rewrite !list_lookup_fmap.
      destruct (h0 !! 4%nat) as [p4|]; [|reflexivity].
      destruct (h0 !! 8%nat) as [p8|]; [|reflexivity].
      cbn [fmap option_fmap option_map prop cbind]. rewrite f_dx, f_dy.
      by destruct (Rgt_dec _ _).
Qed.

End Moved.

(** X4.  The depth of the landmarks is never read: with any other [z]
    coordinates the classifier completes the same way with the same state. *)
Theorem processResult_ignores_depth (zf : Landmark -> R) (lms : list Hand) :
  processResult {| landmarks := (fun h : Hand => with_z zf <$> h) <$> lms |}
  = processResult {| landmarks := lms |}.
Proof.
  rewrite (processResult_moved (with_z zf)) by reflexivity.
  destruct (processResult {| landmarks := lms |}) as [st|e] eqn:Hst;
    [|reflexivity].
  cbn [cmap]. f_equal. by_branch Hst; cbn [landmarks] in *; subst; reflexivity.
Qed.

(** X5.  Moving every landmark of every hand by the same [(a, b)] in the
    image plane changes neither whether the classifier fails nor the type
    and strength it delivers; only the rotation moves, by [a * 2 PI]. *)
Theorem processResult_translated (a b : R) (lms : list Hand) :
  processResult {| landmarks := (fun h : Hand => translate a b <$> h) <$> lms |}
  = cmap (fun st =>
            {| type := type st; strength := strength st;
               rotationY := (fun rot => rot + a * PI * 2) <$> rotationY st |})
      (processResult {| landmarks := lms |}).
Proof.
  rewrite (processResult_moved (translate a b))
    by (intros; unfold translate; cbn [x y]; ring).
  destruct (processResult {| landmarks := lms |}) as [st|e] eqn:Hst;
    [|reflexivity].
  cbn [cmap]. f_equal.
  by_branch Hst; cbn [landmarks] in *; subst;
    unfold with_rotationY, translate;
    cbn [type strength rotationY fmap option_fmap option_map lookup
         list_lookup default from_option Datatypes.id x];
    try reflexivity; do 2 f_equal; ring.
Qed.

(** **** The prediction loop *)

(** X6.  Without a landmarker [predict] does nothing and does not schedule
    itself again.  With one it always schedules itself again, also when the
    classification throws; it classifies only when the video time differs
    from the last one seen, and remembers that time, so that a second call at
    the same video time classifies nothing and changes nothing. *)
Theorem predict_once_per_frame (t : R) (r r' : HandLandmarkerResult)
    (h : Handler) :
  (landmarker h = false ->
   predict t r h = {| handler := h; scheduled := false; outcome := None |})
  /\ (landmarker h = true ->
      let p1 := predict t r h in
      let p2 := predict t r' (handler p1) in
      scheduled p1 = true
      /\ landmarker (handler p1) = true
      /\ lastVideoTime (handler p1) = t
      /\ (t <> lastVideoTime h -> outcome p1 = Some (processResult r))
      /\ (t = lastVideoTime h -> outcome p1 = None)
      /\ scheduled p2 = true
      /\ outcome p2 = None
      /\ handler p2 = handler p1).
Proof.
  split; intros Hl; unfold predict; rewrite Hl; [reflexivity|].
  destruct (Req_dec_T t (lastVideoTime h)) as [Heq|Hne];
    cbn [handler scheduled outcome landmarker lastVideoTime]; rewrite ?Hl.
  - destruct (Req_dec_T t (lastVideoTime h)) as [_|Hne]; [|done].
    cbn [handler scheduled outcome]. repeat split; done.
  - destruct (Req_dec_T t t) as [_|Hne']; [|done].
    cbn [handler scheduled outcome landmarker lastVideoTime].
    repeat split; done.
Qed.

Lemma predict_once_per_frame_witness :
  outcome (predict 0 {| landmarks := [] |}
             {| landmarker := true; lastVideoTime := -1 |})
  = Some (Normal {| type := IDLE; strength := 0; rotationY := None |}).
Proof.
  apply (predict_once_per_frame 0 {| landmarks := [] |} {| landmarks := [] |}
           {| landmarker := true; lastVideoTime := -1 |});
    [reflexivity|]. cbn [lastVideoTime]. lra.
Defined.

End ClassifierMore.

(** * More about the particle system *)

Section ParticlesMore.

Import GestureHandler HeartSystem.

(** **** One step, field by field *)

Section Step.

Variable random : nat -> R.

Lemma update_loop_fields (dt pulseScale : R) (isExp isCon : bool)
    (handStrength : R) (s : System) :
  let s' := update_loop random dt pulseScale isExp isCon handStrength s in
  maxCount s' = maxCount s
  /\ currentCount s' = currentCount s
  /\ targetArray s' = targetArray s
  /\ time s' = time s
  /\ pulseSpeed s' = pulseSpeed s
  /\ params s' = params s
  /\ drawCount s' = drawCount s
  /\ rotation_y s' = rotation_y s
  /\ seed s' = (seed s + 3 * Z.to_nat (currentCount s))%nat
  /\ length (posArray s') = length (posArray s)
  /\ length (velArray s') = length (velArray s)
  /\ length (colorArray s') = length (colorArray s).
Proof.
  unfold update_loop. cbv zeta.
  repeat split;
    try (apply fold_left_field; intros; apply update_particle_fields).
  - apply fold_left_seed. intros. apply update_particle_fields.
  - apply (fold_left_field _ (fun s1 => length (posArray s1))).
    intros. apply update_particle_length.
  - apply (fold_left_field _ (fun s1 => length (velArray s1))).
    intros. apply update_particle_length.
  - apply (fold_left_field _ (fun s1 => length (colorArray s1))).
    intros. apply update_particle_length.
Qed.

Lemma update_fields (dt : R) (gesture : GestureState) (s : System) :
  let s' := update random dt gesture s in
  maxCount s' = maxCount s
  /\ currentCount s' = currentCount s
  /\ targetArray s' = targetArray s
  /\ time s' = time s + dt * pulseSpeed s
  /\ pulseSpeed s' = pulseSpeed s
  /\ params s' = params s
  /\ drawCount s' = drawCount s
  /\ rotation_y s'
     = match rotationY gesture with
       | Some rotY => rotation_y s + (rotY - rotation_y s) * 0.1
       | None => rotation_y s + dt * 0.1
       end
  /\ seed s' = (seed s + 3 * Z.to_nat (currentCount s))%nat
  /\ length (posArray s') = length (posArray s)
  /\ length (velArray s') = length (velArray s)
  /\ length (colorArray s') = length (colorArray s).
Proof.
  unfold update. cbv zeta.
  match goal with
  | |- context [update_loop random dt ?ps ?e ?c ?hs ?s0] =>
      pose proof (update_loop_fields dt ps e c hs s0) as H;
      cbv zeta in H;
      set (sl := update_loop random dt ps e c hs s0) in *;
      cbn [with_time maxCount currentCount targetArray time
        pulseSpeed params drawCount rotation_y seed posArray velArray
        colorArray] in H;
      destruct H as (H1 & H2 & H3 & H4 & H5 & H6 & H7 & H8 & H9 & H10 & H11
                     & H12)
  end.
  destruct (rotationY gesture);
    cbn [with_rotation_y maxCount currentCount targetArray time pulseSpeed
         params drawCount rotation_y seed posArray velArray colorArray];
    rewrite H8; repeat split; assumption.
Qed.

End Step.

(** **** Rotation and time over a run *)

Lemma run_cons (random : nat -> R) (dt : R) (gesture : GestureState)
    (frames : list (R * GestureState)) (s : System) :
  run random ((dt, gesture) :: frames) s
  = run random frames (update random dt gesture s).
Proof. reflexivity. Qed.

(** X7.  While the gesture carries the same rotation target, every step
    moves the container rotation a tenth of the way to it: after [n] steps
    the distance to the target is [0.9 ^ n] times what it was, whatever the
    frame times and gesture types. *)
Theorem rotation_smoothing (random : nat -> R) (target : R)
    (frames : list (R * GestureState)) (s : System) :
  Forall (fun f => rotationY (snd f) = Some target) frames ->
  rotation_y (run random frames s) - target
  = 0.9 ^ length frames * (rotation_y s - target).
Proof.
  intros Hall. revert s.
  induction Hall as [|[dt gesture] frames Hrot _ IH]; intros s.
  - unfold run. cbn [fold_left length pow]. lra.
  - rewrite run_cons, IH. cbn [length pow snd] in *.
    destruct (update_fields random dt gesture s)
      as (_ & _ & _ & _ & _ & _ & _ & Hr & _).
    rewrite Hr, Hrot. generalize (0.9 ^ length frames). intros p. lra.
Qed.

Lemma rotation_smoothing_witness :
  let gesture := {| type := IDLE; strength := 0; rotationY := Some 1 |} in
  rotation_y (run halves [(0.016, gesture); (0.016, gesture)] exampleSystem) - 1
  = 0.9 ^ 2 * (rotation_y exampleSystem - 1).
Proof.
  intros gesture.
  apply (rotation_smoothing halves 1 [(0.016, gesture); (0.016, gesture)]).
  repeat constructor.
Defined.

(** X8.  Over a run the simulation time grows by the elapsed time times
    [pulseSpeed]; and while the gesture carries no rotation the container
    turns at the idle rate, by a tenth of the elapsed time. *)
Theorem run_time_and_idle_spin (random : nat -> R)
    (frames : list (R * GestureState)) (s : System) :
  time (run random frames s) = time s + elapsed frames * pulseSpeed s
  /\ (Forall (fun f => rotationY (snd f) = None) frames ->
      rotation_y (run random frames s)
      = rotation_y s + elapsed frames * 0.1).
Proof.
  revert s. induction frames as [|[dt gesture] frames IH]; intros s.
  - unfold elapsed, run. cbn [fold_left fmap list_fmap fold_right].
    split; [|intros _]; lra.
  - rewrite run_cons. destruct (IH (update random dt gesture s)) as [Ht Hr].
    destruct (update_fields random dt gesture s)
      as (_ & _ & _ & Htime & Hps & _ & _ & Hrot & _).
    unfold elapsed in *. cbn [fmap list_fmap fold_right fst] in *.
    split.
    + rewrite Ht, Htime, Hps. lra.
    + intros Hall. apply Forall_cons in Hall as [Hnone Hall].
      cbn [snd] in Hnone. rewrite (Hr Hall), Hrot, Hnone. lra.
Qed.

Lemma run_time_and_idle_spin_witness :
  let gesture := {| type := IDLE; strength := 0; rotationY := None |} in
  rotation_y (run halves [(0.25, gesture); (0.75, gesture)] exampleSystem)
  = 0.1.
Proof.
  intros gesture.
  destruct (run_time_and_idle_spin halves [(0.25, gesture); (0.75, gesture)]
              exampleSystem) as [_ ->].
  - unfold elapsed. cbn. lra.
  - repeat constructor.
Defined.

(** **** The active count *)

(** X9.  With an active count of 0 or less (as [setParticleCount] leaves
    it for such a count) a step simulates no particle: it stores into no
    buffer and draws no random number; only the time and the rotation
    move. *)
Theorem update_without_particles (random : nat -> R) (dt : R)
    (gesture : GestureState) (n : Z) (s : System) :
  (n <= 0)%Z ->
  let s' := update random dt gesture (setParticleCount n s) in
  posArray s' = posArray s
  /\ targetArray s' = targetArray s
  /\ velArray s' = velArray s
  /\ colorArray s' = colorArray s
  /\ seed s' = seed s
  /\ time s' = time s + dt * pulseSpeed s.
Proof.
  intros Hn. cbv zeta. unfold update, update_loop, setParticleCount.
  cbn [with_time with_count currentCount maxCount].
  replace (Z.to_nat (Z.min n (maxCount s))) with 0%nat by lia.
  cbn [seq fold_left]. destruct (rotationY gesture); repeat split.
Qed.

Lemma update_without_particles_witness :
  let gesture := {| type := EXPAND; strength := 1; rotationY := None |} in
  posArray (update halves 0.016 gesture (setParticleCount (-5) exampleSystem))
  = [1; 2; 3; 4; 5; 6].
Proof.
  intros gesture.
  apply (update_without_particles halves 0.016 gesture (-5) exampleSystem).
  lia.
Defined.

(** **** The generator on whole buffers *)

Section Reset.

Variable random : nat -> R.

Lemma resetParticle_scalars (s : System) (i : nat) :
  time (resetParticle random s i) = time s
  /\ pulseSpeed (resetParticle random s i) = pulseSpeed s
  /\ params (resetParticle random s i) = params s
  /\ drawCount (resetParticle random s i) = drawCount s
  /\ rotation_y (resetParticle random s i) = rotation_y s.
Proof. by destruct s. Qed.

Lemma resetParticle_pos_target (s : System) (i k : nat) :
  length (posArray s) = length (targetArray s) ->
  (i * 3 <= k < i * 3 + 3)%nat ->
  posArray (resetParticle random s i) !! k
  = targetArray (resetParticle random s i) !! k.
Proof.
  destruct s as [mc cc pos tgt vel col tm ps pa dc ro sd].
  cbn [posArray targetArray]. intros Hlen Hk.
  unfold resetParticle, getHeartPoint, Math_random.
  cbn [posArray targetArray seed].
  rewrite !list_lookup_insert, !length_insert, Hlen.
  repeat case_decide; try reflexivity.
  rewrite !lookup_ge_None_2 by lia. reflexivity.
Qed.

Lemma resetParticle_vel_zero (s : System) (i k : nat) :
  (i * 3 <= k < i * 3 + 3)%nat ->
  (k < length (velArray s))%nat ->
  velArray (resetParticle random s i) !! k = Some 0.
Proof.
  destruct s as [mc cc pos tgt vel col tm ps pa dc ro sd].
  cbn [velArray]. intros Hk Hlen.
  unfold resetParticle, getHeartPoint, Math_random. cbn [velArray seed].
  rewrite !list_lookup_insert, !length_insert.
  repeat case_decide; try reflexivity; lia.
Qed.

Lemma resetParticles_S (n : nat) (s : System) :
  resetParticles random (S n) s
  = resetParticle random (resetParticles random n s) n.
Proof. unfold resetParticles. by rewrite seq_S, fold_left_app. Qed.

Lemma resetParticles_fields (n : nat) (s : System) :
  maxCount (resetParticles random n s) = maxCount s
  /\ currentCount (resetParticles random n s) = currentCount s
  /\ colorArray (resetParticles random n s) = colorArray s
  /\ time (resetParticles random n s) = time s
  /\ pulseSpeed (resetParticles random n s) = pulseSpeed s
  /\ params (resetParticles random n s) = params s
  /\ drawCount (resetParticles random n s) = drawCount s
  /\ rotation_y (resetParticles random n s) = rotation_y s
  /\ seed (resetParticles random n s) = (seed s + 3 * n)%nat.
Proof.
  unfold resetParticles.
  repeat split;
    try (apply fold_left_field; intros; apply resetParticle_fields);
    try (apply fold_left_field; intros; apply resetParticle_scalars).
  apply fold_left_seed. intros. apply resetParticle_fields.
Qed.

(** After the loop has done the first [n] particles, their slots hold the
    same in the position and home buffers, and zero in the velocity
    buffer. *)
Lemma resetParticles_synced (n : nat) (s : System) (k : nat) :
  length (posArray s) = length (targetArray s) ->
  (k < n * 3)%nat ->
  posArray (resetParticles random n s) !! k
  = targetArray (resetParticles random n s) !! k
  /\ ((k < length (velArray s))%nat ->
      velArray (resetParticles random n s) !! k = Some 0).
Proof.
  intros Hlen. induction n as [|n IH]; intros Hk; [lia|].
  rewrite resetParticles_S.
  destruct (before_length random s n) as (Lp & Lt & Lv).
  destruct (decide (k < n * 3)%nat) as [Hlt|Hge].
  - destruct (resetParticle_frame random (resetParticles random n s) n k)
      as (-> & -> & ->); [lia|]. by apply IH.
  - split.
    + apply resetParticle_pos_target; [congruence|lia].
    + intros Hv. apply resetParticle_vel_zero; [lia|]. by rewrite Lv.
Qed.

Lemma initParticles_synced (s : System) :
  allocated s ->
  let s' := initParticles random s in
  posArray s' = targetArray s'
  /\ velArray s' = replicate (Z.to_nat (maxCount s * 3)) 0
  /\ colorArray s' = colorArray s
  /\ currentCount s' = currentCount s
  /\ maxCount s' = maxCount s
  /\ allocated s'
  /\ seed s' = (seed s + 3 * Z.to_nat (maxCount s))%nat.
Proof.
  intros (Ap & At & Av & Ac). cbv zeta. unfold initParticles.
  set (n := Z.to_nat (maxCount s)).
  destruct (before_length random s n) as (Lp & Lt & Lv).
  destruct (resetParticles_fields n s)
    as (Fm & Fc & Fcol & _ & _ & _ & _ & _ & Fs).
  assert (Hn : Z.to_nat (maxCount s * 3) = (n * 3)%nat) by (subst n; lia).
  repeat split; try assumption; try congruence.
  - apply list_eq. intros k.
    destruct (decide (k < n * 3)%nat) as [Hlt|Hge].
    + apply resetParticles_synced; [congruence|done].
    + rewrite !lookup_ge_None_2; [done|lia..].
  - apply list_eq. intros k.
    destruct (decide (k < n * 3)%nat) as [Hlt|Hge].
    + rewrite lookup_replicate_2 by lia.
      apply resetParticles_synced; [congruence|done|lia].
    + rewrite lookup_ge_None_2 by lia.
      symmetry. apply lookup_replicate_None. lia.
Qed.

(** X10.  On a system whose buffers have their [3 * maxCount] slots,
    [initParticles] leaves the position buffer equal to the home buffer and
    the velocity buffer all zero; it keeps the colour buffer, the active
    count and the sizes, and makes three draws per particle. *)
Theorem initParticles_buffers (s : System) :
  allocated s ->
  let s' := initParticles random s in
  posArray s' = targetArray s'
  /\ velArray s' = replicate (Z.to_nat (maxCount s * 3)) 0
  /\ colorArray s' = colorArray s
  /\ currentCount s' = currentCount s
  /\ maxCount s' = maxCount s
  /\ allocated s'
  /\ seed s' = (seed s + 3 * Z.to_nat (maxCount s))%nat.
Proof. exact (initParticles_synced s). Qed.

End Reset.

Lemma exampleSystem_allocated : allocated exampleSystem.
Proof. unfold allocated. cbn. repeat split; lia. Qed.

Lemma initParticles_buffers_witness :
  posArray (initParticles halves exampleSystem)
  = targetArray (initParticles halves exampleSystem).
Proof.
  apply (initParticles_buffers halves exampleSystem exampleSystem_allocated).
Defined.

(** **** The constructor *)





(** **** What every call keeps *)

Lemma perform_keeps (random : nat -> R) (s : System) (c : call) :
  allocated s ->
  allocated (perform random s c)
  /\ maxCount (perform random s c) = maxCount s
  /\ pulseSpeed (perform random s c) = pulseSpeed s
  /\ (color2 (params (perform random s c)) = color2 (params s)
      /\ springStrength (params (perform random s c))
         = springStrength (params s)
      /\ damping (params (perform random s c)) = damping (params s)
      /\ noiseStrength (params (perform random s c))
         = noiseStrength (params s))
  /\ color1 (params (perform random s c))
     = match c with SetColor1 c' => c' | _ => color1 (params s) end
  /\ ((currentCount s <= maxCount s)%Z ->
      (currentCount (perform random s c) <= maxCount s)%Z)
  /\ (forall n, c = SetParticleCount n ->
      (currentCount (perform random s c) <= maxCount s)%Z).
Proof.
  intros Ha. destruct c as [dt gesture|n| |c1]; cbn [perform].
  - pose proof (update_fields random dt gesture s) as H. cbv zeta in H.
    destruct H as (Hm & Hc & Ht & _ & Hps & Hpa & _ & _ & _ & Lp & Lv & Lc).
    destruct Ha as (Ap & At & Av & Ac). rewrite Hpa.
    repeat split; unfold allocated; try congruence; try discriminate.
  - unfold setParticleCount.
    cbn [with_count maxCount currentCount params pulseSpeed].
    repeat split; try apply Ha; try lia.
  - pose proof (initParticles_synced random s Ha) as H. cbv zeta in H.
    destruct H as (_ & _ & _ & Hc & Hm & Hal & _).
    unfold initParticles in *.
    destruct (resetParticles_fields random (Z.to_nat (maxCount s)) s)
      as (_ & _ & _ & _ & Hps & Hpa & _). rewrite Hpa.
    split; [exact Hal|]. repeat split; try congruence; try discriminate.
  - unfold with_color1.
    cbn [maxCount currentCount params pulseSpeed color1 color2 springStrength
         damping noiseStrength].
    split; [exact Ha|]. repeat split; try done; discriminate.
Qed.

(** X12.  Whatever main.js does to a system whose buffers have their
    [3 * maxCount] slots (updates, count changes, resets, colour changes),
    the buffers keep that size and [maxCount], and the pulse speed, the
    second colour, the spring strength, the damping and the noise strength
    stay what they were; the first colour is the one the last colour change
    set, or the initial one; an active count within [maxCount] stays within
    it, and after any call of [setParticleCount] it is within it. *)
Theorem performAll_keeps (random : nat -> R) (calls : list call) (s : System) :
  allocated s ->
  allocated (performAll random calls s)
  /\ maxCount (performAll random calls s) = maxCount s
  /\ pulseSpeed (performAll random calls s) = pulseSpeed s
  /\ (color2 (params (performAll random calls s)) = color2 (params s)
      /\ springStrength (params (performAll random calls s))
         = springStrength (params s)
      /\ damping (params (performAll random calls s)) = damping (params s)
      /\ noiseStrength (params (performAll random calls s))
         = noiseStrength (params s))
  /\ color1 (params (performAll random calls s))
     = lastColor1 calls (color1 (params s))
  /\ ((currentCount s <= maxCount s)%Z
      \/ (exists n, SetParticleCount n ∈ calls) ->
      (currentCount (performAll random calls s) <= maxCount s)%Z).
Proof.
  unfold performAll, lastColor1. revert s.
  induction calls as [|c calls IH]; intros s Ha.
  - cbn [fold_left]. split; [exact Ha|]. do 2 (split; [reflexivity|]).
    split; [done|]. split; [reflexivity|].
    intros [H|(n & Hn)]; [done|]. by apply elem_of_nil in Hn.
  - cbn [fold_left].
    destruct (perform_keeps random s c Ha)
      as (Ha' & Hm & Hps & (P2 & P3 & P4 & P5) & P1 & Hc & Hset).
    destruct (IH (perform random s c) Ha')
      as (I1 & I2 & I3 & (J2 & J3 & J4 & J5) & J1 & I5).
    rewrite Hm in I2, I5. rewrite Hps in I3.
    rewrite P2 in J2. rewrite P3 in J3. rewrite P4 in J4. rewrite P5 in J5.
    rewrite P1 in J1.
    split; [exact I1|]. do 2 (split; [assumption|]).
    split; [done|]. split; [exact J1|].
    intros [H|(n & Hn)]; apply I5.
    + left. by apply Hc.
    + apply elem_of_cons in Hn as [Hn|Hn].
      * left. by apply (Hset n).
      * right. by exists n.
Qed.

Lemma performAll_keeps_witness :
  let calls :=
    [InitParticles; SetColor1 {| r := 0; g := 1; b := 0 |};
     SetParticleCount 7;
     Update 0.016 {| type := IDLE; strength := 0; rotationY := None |}] in
  (currentCount (performAll halves calls exampleSystem) <= 2)%Z
  /\ color1 (params (performAll halves calls exampleSystem))
     = {| r := 0; g := 1; b := 0 |}.
Proof.
  intros calls.
  destruct (performAll_keeps halves calls exampleSystem
              exampleSystem_allocated) as (_ & _ & _ & _ & Hcol & Hcnt).
  split; [|exact Hcol].
  apply Hcnt. right. exists 7%Z. subst calls. repeat constructor.
Defined.

(** **** An active particle after a step *)

(** What [update] leaves in the slots of an active particle inside the
    buffers, in terms of what they held. *)
Lemma update_at (random : nat -> R) (dt : R) (gesture : GestureState)
    (s : System) (i : nat) :
  (Z.of_nat i < currentCount s)%Z ->
  (i * 3 + 3 <= length (posArray s))%nat ->
  (i * 3 + 3 <= length (velArray s))%nat ->
  (i * 3 + 3 <= length (colorArray s))%nat ->
  let force0 :=
    vadd (vadd (f_spring (params s) (beat (time s + dt * pulseSpeed s))
                  (vec (targetArray s) i) (vec (posArray s) i))
               (f_gesture gesture dt (vec (posArray s) i)))
         (f_noise (params s) (random (seed s + 3 * i)%nat)
                  (random (seed s + 3 * i + 1)%nat)
                  (random (seed s + 3 * i + 2)%nat)) in
  let v0 := step_velocity (params s) (vec (velArray s) i) force0 in
  vec (velArray (update random dt gesture s)) i = v0
  /\ vec (posArray (update random dt gesture s)) i
     = step_position (vec (posArray s) i) v0
  /\ vec (colorArray (update random dt gesture s)) i
     = step_color (params s) v0.
Proof.
  intros Hi Hp Hv Hc force0 v0.
  destruct (update_buffers random dt gesture s) as (-> & -> & -> & _).
  unfold update_loop. cbn [currentCount with_time]. rewrite or_zero_id.
  set (f := update_particle random dt (beat (time s + dt * pulseSpeed s))
              match type gesture with EXPAND => true | _ => false end
              match type gesture with CONTRACT => true | _ => false end
              (strength gesture)).
  set (s0 := with_time (time s + dt * pulseSpeed s) s).
  rewrite (fold_left_seq_split f (Z.to_nat (currentCount s)) 0 i s0)
    by lia.
  set (si := fold_left f (seq 0 (i - 0)) s0).
  assert (Hfr : forall arr : System -> list R,
            (forall s1 j k, (k < j * 3 \/ j * 3 + 3 <= k)%nat ->
                            arr (f s1 j) !! k = arr s1 !! k) ->
            vec (arr (fold_left f (seq (S i)
                        (0 + Z.to_nat (currentCount s) - S i)) (f si i))) i
            = vec (arr (f si i)) i).
  { intros arr Harr. apply vec_ext. intros k Hk.
    apply (fold_left_buffer_frame f arr Harr). lia. }
  rewrite (Hfr posArray), (Hfr velArray), (Hfr colorArray)
    by (intros s1 j k Hk; by apply update_particle_frame).
  assert (Hsi : forall arr : System -> list R,
            (forall s1 j k, (k < j * 3 \/ j * 3 + 3 <= k)%nat ->
                            arr (f s1 j) !! k = arr s1 !! k) ->
            vec (arr si) i = vec (arr s0) i).
  { intros arr Harr. apply vec_ext. intros k Hk.
    apply (fold_left_buffer_frame f arr Harr). lia. }
  assert (Hlen : forall arr : System -> list R,
            (forall s1 j, length (arr (f s1 j)) = length (arr s1)) ->
            length (arr si) = length (arr s0)).
  { intros arr Harr.
    apply (fold_left_field f (fun s1 => length (arr s1)) Harr). }
  pose proof (update_particle_at random dt
                (beat (time s + dt * pulseSpeed s)) gesture si i) as Hat.
  fold f in Hat. cbv zeta in Hat.
  rewrite (Hsi posArray), (Hsi velArray) in Hat
    by (intros s1 j k Hk; by apply update_particle_frame).
  assert (Htg : targetArray si = targetArray s0)
    by (apply (fold_left_field f targetArray); intros;
        apply update_particle_fields).
  assert (Hpa : params si = params s0)
    by (apply (fold_left_field f params); intros;
        apply update_particle_fields).
  assert (Hse : seed si = (seed s0 + 3 * (i - 0))%nat)
    by (apply fold_left_seed; intros; apply update_particle_fields).
  rewrite Htg, Hpa, Hse in Hat.
  replace (seed s0 + 3 * (i - 0))%nat with (seed s + 3 * i)%nat in Hat
    by (subst s0; cbn; lia).
  replace (S (seed s + 3 * i)) with (seed s + 3 * i + 1)%nat in Hat by lia.
  replace (S (seed s + 3 * i + 1)) with (seed s + 3 * i + 2)%nat in Hat
    by lia.
  apply Hat.
  - rewrite (Hlen posArray) by (intros; apply update_particle_length).
    exact Hp.
  - rewrite (Hlen velArray) by (intros; apply update_particle_length).
    exact Hv.
  - rewrite (Hlen colorArray) by (intros; apply update_particle_length).
    exact Hc.
Qed.

(** **** The EXPAND force in the step *)

Lemma abs_le_expand_len (a px py pz : R) :
  a * a <= px * px + py * py + pz * pz ->
  Rabs (a / expand_len px py pz) < 1.
Proof.
  intros Ha. unfold expand_len.
  set (n := sqrt (px * px + py * py + pz * pz)).
  assert (Hn : Rabs a <= n).
  { subst n. rewrite <- sqrt_Rsqr_abs. apply sqrt_le_1_alt. exact Ha. }
  pose proof (Rabs_pos a) as Hp.
  assert (Hpos : 0 < n + 0.001) by lra.
  unfold Rdiv. rewrite Rabs_mult, Rabs_inv, (Rabs_right (n + 0.001)) by lra.
  apply (Rmult_lt_reg_r (n + 0.001)); [exact Hpos|].
  rewrite Rmult_assoc, Rinv_l by lra. lra.
Qed.

(** C8.  In [update], under an EXPAND gesture, the force on an active
    particle is computed by dividing each coordinate of the position by
    [len], its length plus 0.001: the velocity the step leaves is
    [damping * (velocity + f_spring + (p / len) * 50 * strength * dt +
    f_noise)].  [len] is at least 0.001, so never zero, and each quotient
    stays strictly inside (-1, 1).  For a particle at the origin [len] is
    exactly 0.001, the EXPAND force is the zero vector, and the step leaves
    the velocity and position it leaves under an IDLE gesture. *)
Theorem expand_force_defined (random : nat -> R) (dt : R)
    (gesture : GestureState) (s : System) (i : nat) :
  type gesture = EXPAND ->
  (Z.of_nat i < currentCount s)%Z ->
  (i * 3 + 3 <= length (posArray s))%nat ->
  (i * 3 + 3 <= length (targetArray s))%nat ->
  (i * 3 + 3 <= length (velArray s))%nat ->
  (i * 3 + 3 <= length (colorArray s))%nat ->
  let p := vec (posArray s) i in
  let len := expand_len (x p) (y p) (z p) in
  let push := 50 * strength gesture in
  let f_expand := {| x := x p / len * push * dt;
                     y := y p / len * push * dt;
                     z := z p / len * push * dt |} in
  let force :=
    vadd (vadd (f_spring (params s) (beat (time s + dt * pulseSpeed s))
                  (vec (targetArray s) i) p)
               f_expand)
         (f_noise (params s) (random (seed s + 3 * i)%nat)
                  (random (seed s + 3 * i + 1)%nat)
                  (random (seed s + 3 * i + 2)%nat)) in
  let idle := {| type := IDLE; strength := strength gesture;
                 rotationY := rotationY gesture |} in
  (0.001 <= len /\ 0 < len /\ len <> 0
   /\ Rabs (x p / len) < 1 /\ Rabs (y p / len) < 1 /\ Rabs (z p / len) < 1)
  /\ vec (velArray (update random dt gesture s)) i
     = step_velocity (params s) (vec (velArray s) i) force
  /\ (p = vzero ->
      len = 0.001
      /\ f_expand = vzero
      /\ vec (velArray (update random dt gesture s)) i
         = vec (velArray (update random dt idle s)) i
      /\ vec (posArray (update random dt gesture s)) i
         = vec (posArray (update random dt idle s)) i).
Proof.
  intros Hexp Hi Hp _ Hv Hc p len push f_expand force idle.
  destruct (update_at random dt gesture s i Hi Hp Hv Hc) as (Ev & Ep & _).
  destruct (update_at random dt idle s i Hi Hp Hv Hc) as (Iv & Ip & _).
  destruct (expand_len_bounds (x p) (y p) (z p)) as (L1 & L2 & L3 & _).
  assert (Hf : f_gesture gesture dt p = f_expand).
  { unfold f_gesture. rewrite Hexp. subst f_expand push len.
    unfold vscale, vlen, expand_len, Rdiv. cbn [x y z]. f_equal; ring. }
  assert (Hidle : f_gesture idle dt p = vzero) by reflexivity.
  fold p in Ev, Ep, Iv, Ip. rewrite Hf in Ev, Ep. rewrite Hidle in Iv, Ip.
  split; [|split].
  - fold len in L1, L2, L3. repeat split; try assumption;
      apply abs_le_expand_len; nra.
  - exact Ev.
  - intros Hzero.
    assert (Hlen : len = 0.001).
    { subst len. rewrite Hzero. unfold expand_len, vzero. cbn [x y z].
      replace (0 * 0 + 0 * 0 + 0 * 0) with 0 by ring. rewrite sqrt_0. lra. }
    assert (Hfz : f_expand = vzero).
    { subst f_expand. rewrite Hzero. unfold vzero, Rdiv. cbn [x y z].
      f_equal; ring. }
    split; [exact Hlen|]. split; [exact Hfz|].
    rewrite Ev, Ep, Iv, Ip. subst force. rewrite Hfz. split; reflexivity.
Qed.

Lemma expand_force_defined_witness :
  let gesture := {| type := EXPAND; strength := 1; rotationY := None |} in
  let p := vec (posArray exampleSystem) 1 in
  0.001 <= expand_len (x p) (y p) (z p).
Proof.
  intros gesture p.
  apply (expand_force_defined halves 0.016 gesture exampleSystem 1);
    [reflexivity|cbn; lia..].
Defined.

Lemma lerp_between (a b f : R) :
  0 <= f <= 1 -> Rmin a b <= lerp a b f <= Rmax a b.
Proof.
  intros Hf. unfold lerp, Rmin, Rmax. destruct (Rle_dec a b); nra.
Qed.

Lemma vlen_nonneg (v : Vector3) : 0 <= vlen v.
Proof. apply sqrt_pos. Qed.

Lemma step_color_factor (v : Vector3) :
  0 <= Rmin (vlen v * 0.5) 1 <= 1
  /\ (v = vzero -> Rmin (vlen v * 0.5) 1 = 0)
  /\ (2 <= vlen v -> Rmin (vlen v * 0.5) 1 = 1).
Proof.
  pose proof (vlen_nonneg v) as Hv. repeat split.
  - apply Rmin_glb; lra.
  - apply Rmin_r.
  - intros ->. unfold vlen, vzero. cbn [x y z].
    replace (0 * 0 + 0 * 0 + 0 * 0) with 0 by ring. rewrite sqrt_0.
    rewrite Rmin_left; lra.
  - intros H2. rewrite Rmin_right; lra.
Qed.

(** X13.  After a step the colour of an active particle lies, channel by
    channel, between the two colours of the parameters; it is [color1]
    itself for a particle left without velocity and [color2] itself for one
    left with a speed of 2 or more. *)
Theorem update_color_in_gradient (random : nat -> R) (dt : R)
    (gesture : GestureState) (s : System) (i : nat) :
  (Z.of_nat i < currentCount s)%Z ->
  (i * 3 + 3 <= length (posArray s))%nat ->
  (i * 3 + 3 <= length (targetArray s))%nat ->
  (i * 3 + 3 <= length (velArray s))%nat ->
  (i * 3 + 3 <= length (colorArray s))%nat ->
  let s' := update random dt gesture s in
  let color := vec (colorArray s') i in
  let velocity := vec (velArray s') i in
  let c1 := color1 (params s) in
  let c2 := color2 (params s) in
  (Rmin (r c1) (r c2) <= x color <= Rmax (r c1) (r c2)
   /\ Rmin (g c1) (g c2) <= y color <= Rmax (g c1) (g c2)
   /\ Rmin (b c1) (b c2) <= z color <= Rmax (b c1) (b c2))
  /\ (velocity = vzero ->
      color = {| x := r c1; y := g c1; z := b c1 |})
  /\ (2 <= vlen velocity ->
      color = {| x := r c2; y := g c2; z := b c2 |}).
Proof.
  intros Hi Hp _ Hv Hc. cbv zeta.
  destruct (update_at random dt gesture s i Hi Hp Hv Hc) as (-> & _ & ->).
  match goal with
  | |- context [step_color _ ?v0] =>
      generalize v0; intros v;
      destruct (step_color_factor v) as (Hf & Hzero & Hfast)
  end.
  unfold step_color. cbn [x y z]. repeat split;
    try (apply lerp_between; exact Hf).
  - intros Hz. rewrite (Hzero Hz). unfold lerp. f_equal; ring.
  - intros H2. rewrite (Hfast H2). unfold lerp. f_equal; ring.
Qed.

Lemma update_color_in_gradient_witness :
  let gesture := {| type := EXPAND; strength := 1; rotationY := None |} in
  let color := vec (colorArray (update halves 0.016 gesture exampleSystem)) 1 in
  Rmin 0.1 1 <= z color <= Rmax 0.1 1.
Proof.
  intros gesture color.
  apply (update_color_in_gradient halves 0.016 gesture exampleSystem 1);
    cbn; lia.
Defined.

(** X14.  Rest is kept: under an IDLE gesture and without noise, an active
    particle that has no velocity and sits on its home scaled by the pulse
    of the step keeps its position and its zero velocity, and gets
    [color1]. *)
Theorem update_keeps_rest (random : nat -> R) (dt : R)
    (gesture : GestureState) (s : System) (i : nat) :
  (Z.of_nat i < currentCount s)%Z ->
  (i * 3 + 3 <= length (posArray s))%nat ->
  (i * 3 + 3 <= length (targetArray s))%nat ->
  (i * 3 + 3 <= length (velArray s))%nat ->
  (i * 3 + 3 <= length (colorArray s))%nat ->
  type gesture = IDLE ->
  noiseStrength (params s) = 0 ->
  vec (velArray s) i = vzero ->
  vec (posArray s) i
  = vscale (beat (time s + dt * pulseSpeed s)) (vec (targetArray s) i) ->
  let s' := update random dt gesture s in
  vec (velArray s') i = vzero
  /\ vec (posArray s') i = vec (posArray s) i
  /\ vec (colorArray s') i
     = {| x := r (color1 (params s)); y := g (color1 (params s));
          z := b (color1 (params s)) |}.
Proof.
  intros Hi Hp _ Hv Hc Hidle Hnoise Hvel Hpos. cbv zeta.
  destruct (update_at random dt gesture s i Hi Hp Hv Hc) as (Ev & Ep & Ec).
  assert (Hzero : step_velocity (params s) (vec (velArray s) i)
            (vadd (vadd (f_spring (params s) (beat (time s + dt * pulseSpeed s))
                           (vec (targetArray s) i) (vec (posArray s) i))
                        (f_gesture gesture dt (vec (posArray s) i)))
                  (f_noise (params s) (random (seed s + 3 * i)%nat)
                     (random (seed s + 3 * i + 1)%nat)
                     (random (seed s + 3 * i + 2)%nat))) = vzero).
  { rewrite Hvel, Hpos. unfold f_gesture, f_noise. rewrite Hidle, Hnoise.
    unfold step_velocity, vadd, f_spring, vscale, vsub, vzero.
    cbn [x y z]. f_equal; nra. }
  rewrite Ev, Ep, Ec, Hzero. repeat split.
  - unfold step_position, vadd, vzero. cbn [x y z].
    destruct (vec (posArray s) i). cbn [x y z]. f_equal; lra.
  - destruct (step_color_factor vzero) as (_ & Hz & _).
    unfold step_color. rewrite (Hz eq_refl). unfold lerp. f_equal; ring.
Qed.

Lemma update_keeps_rest_witness :
  let gesture := {| type := IDLE; strength := 0; rotationY := None |} in
  vec (posArray (update halves 0 gesture stillSystem)) 1
  = vec (posArray stillSystem) 1.
Proof.
  intros gesture.
  apply (update_keeps_rest halves 0 gesture stillSystem 1);
    try (cbn; lia); try reflexivity.
  assert (Hb : beat (time stillSystem + 0 * pulseSpeed stillSystem) = 1).
  { cbn [stillSystem time pulseSpeed]. unfold beat.
    replace ((0 + 0 * 1) * 3) with 0 by lra. rewrite sin_0. lra. }
  rewrite Hb. unfold vec, vscale, aget. cbn. f_equal; lra.
Defined.

(** **** The size of the heart *)

Lemma cos_3a (t : R) : cos (3 * t) = 4 * cos t ^ 3 - 3 * cos t.
Proof.
  replace (3 * t) with (2 * t + t) by ring.
  rewrite cos_plus, sin_2a, cos_2a_cos.
  pose proof (sin2_cos2 t) as H. unfold Rsqr in H.
  replace (2 * sin t * cos t * sin t) with (2 * cos t * (sin t * sin t))
    by ring.
  replace (sin t * sin t) with (1 - cos t * cos t) by lra. ring.
Qed.

Lemma cos_4a (t : R) : cos (4 * t) = 8 * cos t ^ 4 - 8 * cos t ^ 2 + 1.
Proof.
  replace (4 * t) with (2 * (2 * t)) by ring.
  rewrite (cos_2a_cos (2 * t)), cos_2a_cos. ring.
Qed.

Lemma heartY_poly (t : R) :
  heartY t
  = - 8 * cos t ^ 4 - 8 * cos t ^ 3 - 2 * cos t ^ 2 + 19 * cos t + 4.
Proof. unfold heartY. rewrite cos_4a, cos_3a, cos_2a_cos. ring. Qed.

(** The curve stays in the box the comment of [resetParticle] gives. *)
Lemma heart_curve_box (t : R) :
  -16 <= heartX t <= 16 /\ -17 <= heartY t <= 13.
Proof.
  split.
  - unfold heartX. pose proof (SIN_bound t) as Hs.
    assert (-1 <= sin t ^ 3 <= 1) by nra. lra.
  - rewrite heartY_poly. pose proof (COS_bound t) as Hc.
    set (c := cos t) in *. split.
    + replace (- 8 * c ^ 4 - 8 * c ^ 3 - 2 * c ^ 2 + 19 * c + 4)
        with ((c + 1) * (- 8 * c ^ 3 - 2 * c + 21) - 17) by ring.
      assert (0 <= - 8 * c ^ 3 - 2 * c + 21) by nra. nra.
    + pose proof (pow2_ge_0 (c * (2 * c + 1) - 8 / 5)) as H1.
      pose proof (pow2_ge_0 (c - 1 / 2)) as H2.
      nra.
Qed.

Section Box.

Variable random : nat -> R.

(** The home of particle [i] after [initParticles], from its three draws. *)
Lemma home_from_draws (s : System) (i : nat) :
  (Z.of_nat i < maxCount s)%Z ->
  (i * 3 + 3 <= length (posArray s))%nat ->
  (i * 3 + 3 <= length (targetArray s))%nat ->
  (i * 3 + 3 <= length (velArray s))%nat ->
  let t := random (seed s + 3 * i)%nat * PI * 2 in
  let r := sqrt (random (seed s + 3 * i + 1)%nat) in
  vec (targetArray (initParticles random s)) i
  = {| x := heartX t * r; y := heartY t * r + 2;
       z := (random (seed s + 3 * i + 2)%nat - 0.5) * 10 * r |}.
Proof.
  intros Hi Hp Ht Hv. cbv zeta.
  destruct (before_length random s i) as (Lp & Lt & Lv).
  destruct (before_seed random s i) as (S0 & S1 & S2).
  rewrite (initParticles_slot random s i targetArray) by
    (lia || (intros; by apply resetParticle_frame)).
  destruct (resetParticle_at random (resetParticles random i s) i)
    as (-> & _); [by rewrite Lp|by rewrite Lt|by rewrite Lv|].
  by rewrite S2, S1, S0.
Qed.

(** X15.  With draws in [[0, 1)], every home point that [initParticles]
    generates lies in the box [[-16, 16] x [-15, 15] x [-5, 5]]: the offset
    of 2 centres the curve's height range [[-17, 13]]. *)
Theorem home_in_box (s : System) (i : nat) :
  (forall k : nat, 0 <= random k < 1) ->
  allocated s ->
  (Z.of_nat i < maxCount s)%Z ->
  let home := vec (targetArray (initParticles random s)) i in
  -16 <= x home <= 16 /\ -15 <= y home <= 15 /\ -5 <= z home <= 5.
Proof.
  intros Hran (Ap & At & Av & _) Hi. cbv zeta.
  rewrite home_from_draws by lia. cbn [x y z].
  pose proof (Hran (seed s + 3 * i + 1)%nat) as H1.
  pose proof (Hran (seed s + 3 * i + 2)%nat) as H2.
  set (t := random (seed s + 3 * i)%nat * PI * 2).
  destruct (heart_curve_box t) as [Hx Hy].
  assert (Hr : 0 <= sqrt (random (seed s + 3 * i + 1)%nat) < 1).
  { split; [apply sqrt_pos|].
    pose proof (sqrt_lt_1_alt (random (seed s + 3 * i + 1)%nat) 1) as Hlt.
    rewrite sqrt_1 in Hlt. apply Hlt. lra. }
  set (r := sqrt (random (seed s + 3 * i + 1)%nat)) in *.
  repeat split; nra.
Qed.

End Box.

Lemma home_in_box_witness :
  -15 <= y (vec (targetArray (initParticles halves exampleSystem)) 1) <= 15.
Proof.
  apply (home_in_box halves exampleSystem 1 halves_range
           exampleSystem_allocated).
  cbn. lia.
Defined.

End ParticlesMore.

(** * The bloom settings *)

Section Bloom.

Import BloomManager.

(** X16.  [updateSettings] changes exactly the settings it is given:
    settings that are all undefined change nothing, settings that are all
    defined replace the pass whatever it was, and two updates in a row do
    what one update with the later settings laid over the earlier does, so
    that repeating an update changes nothing more. *)
Theorem updateSettings_compose (later earlier : Settings) (pass : BloomPass) :
  updateSettings later (updateSettings earlier pass)
  = updateSettings (over later earlier) pass
  /\ updateSettings later (updateSettings later pass)
     = updateSettings later pass
  /\ updateSettings {| bloomStrength := None; bloomRadius := None;
                       bloomThreshold := None |} pass = pass
  /\ (forall s r t : R,
        updateSettings {| bloomStrength := Some s; bloomRadius := Some r;
                          bloomThreshold := Some t |} pass
        = {| strength := s; radius := r; threshold := t |}).
Proof.
  destruct later as [[s1|] [r1|] [t1|]], earlier as [[s2|] [r2|] [t2|]],
    pass as [s0 r0 t0]; repeat split.
Qed.

End Bloom.
